(** * pycozmo session client: a shallow embedding of [pycozmo/client.py]

    The client is a [Dispatcher] whose packet handlers mutate one [Client]
    object, send commands through [self.conn] and dispatch events.  Every
    handler is embedded as a computation in a state-and-exception monad over
    the client object; [self.conn.send], [self.dispatch] and
    [self.add_handler] append to logs kept in that object, so that the order
    of sends and dispatches is observable.

    Modules that [client.py] imports but that are outside the file (json,
    numpy, PIL, [protocol_declaration], [protocol_encoder], [camera],
    [robot]) are collected in the class [Externals]; every definition and
    theorem of the main section is generic in it. *)

From stdpp Require Import gmap strings list fin_maps.
From Stdlib Require Import Floats.

Set Warnings "-register-all".
Local Open Scope Z_scope.

(** ** Python values *)

(** What [json.loads] can return. A [dict] is kept as its list of items. *)
Inductive Json :=
| JNull
| JBool (b : bool)
| JInt (n : Z)
| JFloat (f : float)
| JString (s : string)
| JArray (items : list Json)
| JObject (items : list (string * Json)).

(** The exceptions that can leave a method of the client. [ConnectionTimeout]
    and [UnsupportedFirmwareVersion] are the two classes of
    [pycozmo.exception] that [client.py] raises itself; the others are
    Python's own. [ExternalError] stands for whatever an image codec raises. *)
Inductive Exn :=
| JSONDecodeError
| KeyError
| TypeError
| ValueError
| IndexError
| ExternalError
| ConnectionTimeout
| UnsupportedFirmwareVersion.

#[global] Instance Exn_eq_dec : EqDecision Exn.
Proof. solve_decision. Defined.

(** Python's truth value of a JSON value, as [not self.robot_fw_sig] reads it. *)
Definition float_is_zero (f : float) : bool :=
  match Prim2SF f with
  | S754_zero _ => true
  | _ => false
  end.

Definition json_truthy (j : Json) : bool :=
  match j with
  | JNull => false
  | JBool b => b
  | JInt n => negb (n =? 0)
  | JFloat f => negb (float_is_zero f)
  | JString s => negb (String.eqb s EmptyString)
  | JArray l => match l with [] => false | _ => true end
  | JObject l => match l with [] => false | _ => true end
  end.

Fixpoint dict_get {V : Type} (k : string) (items : list (string * V)) : option V :=
  match items with
  | [] => None
  | (k', v) :: rest => if String.eqb k k' then Some v else dict_get k rest
  end.

(** [j[key]] for a string key: only a [dict] can be subscripted by a string. *)
Definition json_getitem (j : Json) (key : string) : Exn + Json :=
  match j with
  | JObject items =>
      match dict_get key items with
      | Some v => inr v
      | None => inl KeyError
      end
  | _ => inl TypeError
  end.

(** [f == n] for a float and an int: Python compares the exact values. *)
Definition float_eq_int (f : float) (n : Z) : bool :=
  match Prim2SF f with
  | S754_zero _ => n =? 0
  | S754_finite s m e =>
      let v := if s then Z.neg m else Z.pos m in
      if 0 <=? e then v * 2 ^ e =? n else v =? n * 2 ^ (- e)
  | _ => false
  end.

(** [j == n] for an int [n]: [True == 1] holds in Python. *)
Definition json_eq_int (j : Json) (n : Z) : bool :=
  match j with
  | JBool b => Z.b2z b =? n
  | JInt m => m =? n
  | JFloat f => float_eq_int f n
  | _ => false
  end.

(** ** Packets received from the connection ([protocol_encoder]) *)

Module HardwareInfo.
Record t := mk { serial_number_head : Z }.
End HardwareInfo.

Module FirmwareSignature.
Record t := mk { signature : string }.
End FirmwareSignature.

Module BodyInfo.
Record t := mk {
  serial_number : Z;
  body_hw_version : Z;
  body_color : Z }.
End BodyInfo.

Module ImageChunk.
Record t := mk {
  frame_timestamp : Z;
  image_id : Z;
  image_encoding : Z;
  image_resolution : Z;
  image_chunk_count : Z;
  chunk_id : Z;
  data : list Z }.
End ImageChunk.

Module RobotState.
Record t := mk {
  pose_angle_rad : float;
  pose_pitch_rad : float;
  head_angle_rad : float;
  lwheel_speed_mmps : float;
  rwheel_speed_mmps : float;
  lift_height_mm : float;
  battery_voltage : float;
  accel_x : float; accel_y : float; accel_z : float;
  gyro_x : float; gyro_y : float; gyro_z : float;
  status : Z }.
End RobotState.

Module AnimationState.
Record t := mk {
  num_anim_bytes_played : Z;
  num_audio_frames_played : Z;
  enabled_anim_tracks : Z;
  tag : Z;
  client_drop_count : Z }.
End AnimationState.

Module ObjectAvailable.
Record t := mk {
  factory_id : Z;
  object_type : Z }.
End ObjectAvailable.

Module ObjectConnectionState.
Record t := mk {
  object_id : Z;
  factory_id : Z;
  object_type : Z;
  connected : bool }.
End ObjectConnectionState.

(** The packets the client subscribes to in [start]. *)
Inductive Incoming :=
| InHardwareInfo (pkt : HardwareInfo.t)
| InFirmwareSignature (pkt : FirmwareSignature.t)
| InBodyInfo (pkt : BodyInfo.t)
| InImageChunk (pkt : ImageChunk.t)
| InRobotState (pkt : RobotState.t)
| InAnimationState (pkt : AnimationState.t)
| InObjectAvailable (pkt : ObjectAvailable.t)
| InObjectConnectionState (pkt : ObjectConnectionState.t).

(** ** Commands the client sends ([protocol_encoder]) *)

Inductive Command :=
| Enable
| EnableBodyACC
| EnableAnimationState
| NextFrame
| DisplayImage (image : list Z).

#[global] Instance Command_eq_dec : EqDecision Command.
Proof. solve_decision. Defined.

(** ** Event classes declared in [client.py] *)

Inductive EvtClass :=
| EvtRobotFound
| EvtRobotReady
| EvtNewRawCameraImage
| EvtRobotMovingChange
| EvtRobotCarryingBlockChange
| EvtRobotPickingOrPlacingChange
| EvtRobotPickedUpChange
| EvtRobotBodyAccModeChange
| EvtRobotFallingChange
| EvtRobotAnimatingChange
| EvtRobotPathingChange
| EvtRobotLiftInPositionChange
| EvtRobotHeadInPositionChange
| EvtRobotAnimBufferFullChange
| EvtRobotAnimatingIdleChange
| EvtRobotOnChargerChange
| EvtRobotChargingChange
| EvtCliffDetectedChange
| EvtRobotWheelsMovingChange
| EvtChargerOOSChange
| EvtRobotStateUpdated.

#[global] Instance EvtClass_eq_dec : EqDecision EvtClass.
Proof. solve_decision. Defined.

(** The members of [robot.RobotStatusFlag] that [STATUS_EVTS] names. *)
Inductive StatusFlag :=
| IS_MOVING
| IS_CARRYING_BLOCK
| IS_PICKING_OR_PLACING
| IS_PICKED_UP
| IS_BODY_ACC_MODE
| IS_FALLING
| IS_ANIMATING
| IS_PATHING
| LIFT_IN_POS
| HEAD_IN_POS
| IS_ANIM_BUFFER_FULL
| IS_ANIMATING_IDLE
| IS_ON_CHARGER
| IS_CHARGING
| CLIFF_DETECTED
| ARE_WHEELS_MOVING
| IS_CHARGER_OOS.

#[global] Instance StatusFlag_eq_dec : EqDecision StatusFlag.
Proof. solve_decision. Defined.

(** ** What [client.py] imports from outside the file *)

Class Externals := {
  (** [protocol_declaration.FIRMWARE_VERSION] *)
  FIRMWARE_VERSION : Z;
  (** [json.loads]; [None] when it raises [JSONDecodeError] *)
  json_loads : string → option Json;
  (** the values of the members of the enums [protocol_encoder.ImageEncoding],
      [ImageResolution] and [ObjectType]; an enum member is kept as its value *)
  ImageEncoding_values : list Z;
  JPEGMinimizedGray : Z;
  ImageResolution_values : list Z;
  ObjectType_values : list Z;
  (** [camera.RESOLUTIONS], [camera.minicolor_to_jpeg], [camera.minigray_to_jpeg] *)
  RESOLUTIONS : gmap Z (Z * Z);
  minicolor_to_jpeg : list Z → Z → Z → option (list Z);
  minigray_to_jpeg : list Z → Z → Z → option (list Z);
  (** [robot.RobotStatusFlag], [robot.RobotStatusFlagNames],
      [robot.MIN_HEAD_ANGLE.radians], [robot.MIN_LIFT_HEIGHT] *)
  RobotStatusFlag : StatusFlag → Z;
  RobotStatusFlagNames : gmap Z string;
  MIN_HEAD_ANGLE : float;
  MIN_LIFT_HEIGHT : float;
  (** numpy: [np.empty(n, dtype=np.uint8)], [a[i:j] = data] ([None] when the
      shapes do not fit and it raises [ValueError]) and [a[i:j]] *)
  ndarray : Type;
  np_empty : Z → ndarray;
  ndarray_setslice : ndarray → Z → Z → list Z → option ndarray;
  ndarray_getslice : ndarray → Z → Z → list Z;
  (** PIL: [Image.open(io.BytesIO(data)).convert('RGB')] and [image.resize(size)] *)
  Image : Type;
  Image_open_RGB : list Z → option Image;
  Image_resize : Image → Z * Z → option Image }.

(** ** The client object *)

Section Client.
Context {ext : Externals}.

(** Arguments of a dispatched event after [self]. *)
Inductive Arg :=
| ArgState (state : bool)
| ArgImage (image : Image).

(** [object.Object(factory_id=..., object_type=...)] *)
Record Object := mkObject {
  Object_factory_id : Z;
  Object_object_type : Z }.

(** The dict literal stored in [connected_objects]. *)
Record ConnectedObject := mkConnectedObject {
  connected_factory_id : Z;
  connected_object_type : Z }.

(** The fields [_reset_partial_state] assigns. *)
Record Partial := mkPartial {
  _partial_image_timestamp : option Z;
  _partial_data : option ndarray;
  _partial_image_id : option Z;
  _partial_invalid : bool;
  _partial_size : Z;
  _partial_image_encoding : option Z;
  _partial_image_resolution : option Z;
  _last_chunk_id : Z }.

(** Identity fields, filled during the handshake. *)
Record Identity := mkIdentity {
  serial_number_head : option Z;
  robot_fw_sig : option Json;
  serial_number : option Z;
  body_hw_version : option Z;
  body_color : option Z }.

(** Robot state fields. [util.Angle], [util.Speed], [util.Distance],
    [robot.LiftPosition] and [util.Vector3] only wrap the numbers they are
    given, which is what is kept here. *)
Record Telemetry := mkTelemetry {
  pose_angle : float;
  pose_pitch : float;
  head_angle : float;
  left_wheel_speed : float;
  right_wheel_speed : float;
  lift_position : float;
  battery_voltage : float;
  accel : float * float * float;
  gyro : float * float * float;
  robot_status : Z }.

Record Animation := mkAnimation {
  num_anim_bytes_played : Z;
  num_audio_frames_played : Z;
  enabled_anim_tracks : Z;
  tag : Z;
  client_drop_count : Z }.

Record Camera := mkCamera {
  last_image_timestamp : option Z;
  _latest_image : option Image }.

(** The observable effects of the client, oldest first: packets passed to
    [self.conn.send], events passed to [self.dispatch], and subscriptions made
    with [self.add_handler] (event class and its [one_shot] flag). *)
Record Effects := mkEffects {
  conn_sent : list Command;
  dispatched : list (EvtClass * list Arg);
  handlers : list (EvtClass * bool) }.

Record Client := mkClient {
  ident : Identity;
  telemetry : Telemetry;
  animation : Animation;
  camera : Camera;
  available_objects : gmap Z Object;
  connected_objects : gmap Z ConnectedObject;
  partial : Partial;
  effects : Effects }.

(** *** Field updates *)

Definition with_ident (f : Identity → Identity) (c : Client) : Client :=
  mkClient (f (ident c)) (telemetry c) (animation c) (camera c)
    (available_objects c) (connected_objects c) (partial c) (effects c).
Definition with_telemetry (f : Telemetry → Telemetry) (c : Client) : Client :=
  mkClient (ident c) (f (telemetry c)) (animation c) (camera c)
    (available_objects c) (connected_objects c) (partial c) (effects c).
Definition with_animation (f : Animation → Animation) (c : Client) : Client :=
  mkClient (ident c) (telemetry c) (f (animation c)) (camera c)
    (available_objects c) (connected_objects c) (partial c) (effects c).
Definition with_camera (f : Camera → Camera) (c : Client) : Client :=
  mkClient (ident c) (telemetry c) (animation c) (f (camera c))
    (available_objects c) (connected_objects c) (partial c) (effects c).
Definition with_available_objects (f : gmap Z Object → gmap Z Object) (c : Client) : Client :=
  mkClient (ident c) (telemetry c) (animation c) (camera c)
    (f (available_objects c)) (connected_objects c) (partial c) (effects c).
Definition with_connected_objects
    (f : gmap Z ConnectedObject → gmap Z ConnectedObject) (c : Client) : Client :=
  mkClient (ident c) (telemetry c) (animation c) (camera c)
    (available_objects c) (f (connected_objects c)) (partial c) (effects c).
Definition with_partial (f : Partial → Partial) (c : Client) : Client :=
  mkClient (ident c) (telemetry c) (animation c) (camera c)
    (available_objects c) (connected_objects c) (f (partial c)) (effects c).
Definition with_effects (f : Effects → Effects) (c : Client) : Client :=
  mkClient (ident c) (telemetry c) (animation c) (camera c)
    (available_objects c) (connected_objects c) (partial c) (f (effects c)).

Definition set_serial_number_head (v : option Z) (i : Identity) : Identity :=
  mkIdentity v (robot_fw_sig i) (serial_number i) (body_hw_version i) (body_color i).
Definition set_robot_fw_sig (v : option Json) (i : Identity) : Identity :=
  mkIdentity (serial_number_head i) v (serial_number i) (body_hw_version i) (body_color i).
Definition set_serial_number (v : option Z) (i : Identity) : Identity :=
  mkIdentity (serial_number_head i) (robot_fw_sig i) v (body_hw_version i) (body_color i).
Definition set_body_hw_version (v : option Z) (i : Identity) : Identity :=
  mkIdentity (serial_number_head i) (robot_fw_sig i) (serial_number i) v (body_color i).
Definition set_body_color (v : option Z) (i : Identity) : Identity :=
  mkIdentity (serial_number_head i) (robot_fw_sig i) (serial_number i) (body_hw_version i) v.

Definition set_partial_image_timestamp (v : option Z) (p : Partial) : Partial :=
  mkPartial v (_partial_data p) (_partial_image_id p) (_partial_invalid p) (_partial_size p)
    (_partial_image_encoding p) (_partial_image_resolution p) (_last_chunk_id p).
Definition set_partial_data (v : option ndarray) (p : Partial) : Partial :=
  mkPartial (_partial_image_timestamp p) v (_partial_image_id p) (_partial_invalid p)
    (_partial_size p) (_partial_image_encoding p) (_partial_image_resolution p)
    (_last_chunk_id p).
Definition set_partial_image_id (v : option Z) (p : Partial) : Partial :=
  mkPartial (_partial_image_timestamp p) (_partial_data p) v (_partial_invalid p)
    (_partial_size p) (_partial_image_encoding p) (_partial_image_resolution p)
    (_last_chunk_id p).
Definition set_partial_invalid (v : bool) (p : Partial) : Partial :=
  mkPartial (_partial_image_timestamp p) (_partial_data p) (_partial_image_id p) v
    (_partial_size p) (_partial_image_encoding p) (_partial_image_resolution p)
    (_last_chunk_id p).
Definition set_partial_size (v : Z) (p : Partial) : Partial :=
  mkPartial (_partial_image_timestamp p) (_partial_data p) (_partial_image_id p)
    (_partial_invalid p) v (_partial_image_encoding p) (_partial_image_resolution p)
    (_last_chunk_id p).
Definition set_partial_image_encoding (v : option Z) (p : Partial) : Partial :=
  mkPartial (_partial_image_timestamp p) (_partial_data p) (_partial_image_id p)
    (_partial_invalid p) (_partial_size p) v (_partial_image_resolution p) (_last_chunk_id p).
Definition set_partial_image_resolution (v : option Z) (p : Partial) : Partial :=
  mkPartial (_partial_image_timestamp p) (_partial_data p) (_partial_image_id p)
    (_partial_invalid p) (_partial_size p) (_partial_image_encoding p) v (_last_chunk_id p).
Definition set_last_chunk_id (v : Z) (p : Partial) : Partial :=
  mkPartial (_partial_image_timestamp p) (_partial_data p) (_partial_image_id p)
    (_partial_invalid p) (_partial_size p) (_partial_image_encoding p)
    (_partial_image_resolution p) v.

(** ** The monad of a method body: client state and exceptions

    A method either returns a value or raises; in both cases the
    assignments made so far stay in the client object. *)

Inductive Res (A : Type) : Type :=
| Ok (a : A) (c : Client)
| Raise (e : Exn) (c : Client).
#[global] Arguments Ok {A} a c.
#[global] Arguments Raise {A} e c.

Definition M (A : Type) : Type := Client → Res A.

#[export] Instance M_ret : MRet M := λ A a c, Ok a c.
#[export] Instance M_bind : MBind M := λ A B f m c,
  match m c with
  | Ok a c' => f a c'
  | Raise e c' => Raise e c'
  end.

Definition raise {A : Type} (e : Exn) : M A := λ c, Raise e c.
Definition gets {A : Type} (f : Client → A) : M A := λ c, Ok (f c) c.
Definition modify (f : Client → Client) : M unit := λ c, Ok tt (f c).

(** The client object a run leaves behind, whether it returned or raised. *)
Definition final {A : Type} (r : Res A) : Client :=
  match r with
  | Ok _ c => c
  | Raise _ c => c
  end.

Definition returned {A : Type} (r : Res A) : bool :=
  match r with
  | Ok _ _ => true
  | Raise _ _ => false
  end.

(** [self.conn.send(pkt)], [self.dispatch(evt, self, *args)] and
    [self.add_handler(evt, f, one_shot=...)]. *)
Definition conn_send (pkt : Command) : M unit :=
  modify (with_effects (λ e, mkEffects (conn_sent e ++ [pkt]) (dispatched e) (handlers e))).
Definition dispatch (evt : EvtClass) (args : list Arg) : M unit :=
  modify (with_effects (λ e, mkEffects (conn_sent e) (dispatched e ++ [(evt, args)]) (handlers e))).
Definition add_handler (evt : EvtClass) (one_shot : bool) : M unit :=
  modify (with_effects (λ e, mkEffects (conn_sent e) (dispatched e) (handlers e ++ [(evt, one_shot)]))).

(** [for _ in range(n): body] *)
Fixpoint for_range (n : nat) (body : M unit) : M unit :=
  match n with
  | O => mret tt
  | S n' => body;; for_range n' body
  end.

(** ** [Client.__init__] *)

Definition initial_partial : Partial :=
  mkPartial None None None false 0 None None (-1).

Definition Client__init__ : Client :=
  mkClient
    (mkIdentity None None None None None)
    (mkTelemetry 0%float 0%float MIN_HEAD_ANGLE 0%float 0%float MIN_LIFT_HEIGHT 0%float
       (0%float, 0%float, 0%float) (0%float, 0%float, 0%float) 0)
    (mkAnimation 0 0 0 0 0)
    (mkCamera None None)
    ∅ ∅
    initial_partial
    (mkEffects [] [] []).

(** ** Handshake *)

Definition _enable_robot : M unit :=
  let pkt := Enable in
  conn_send pkt;;
  conn_send pkt.

Definition _initialize_robot : M unit :=
  conn_send EnableBodyACC;;
  conn_send EnableAnimationState;;
  for_range 7 (conn_send NextFrame;; conn_send (DisplayImage [63; 63]));;
  (* time.sleep(0.5) *)
  dispatch EvtRobotReady [].

Definition _on_hardware_info (pkt : HardwareInfo.t) : M unit :=
  modify (with_ident (set_serial_number_head (Some (HardwareInfo.serial_number_head pkt)))).

(** [self.robot_fw_sig["version"]]: [None] cannot be subscripted. *)
Definition robot_fw_sig_version : M Json :=
  sig ← gets (λ c, robot_fw_sig (ident c));
  match sig with
  | None => raise TypeError
  | Some j =>
      match json_getitem j "version" with
      | inr v => mret v
      | inl e => raise e
      end
  end.

Definition _on_firmware_signature (pkt : FirmwareSignature.t) : M unit :=
  sig ← match json_loads (FirmwareSignature.signature pkt) with
        | Some j => mret j
        | None => raise JSONDecodeError
        end;
  modify (with_ident (set_robot_fw_sig (Some sig)));;
  (* the argument of logger.info is evaluated before the call *)
  _ ← robot_fw_sig_version;
  _enable_robot.

Definition _on_body_info (pkt : BodyInfo.t) : M unit :=
  modify (with_ident (set_serial_number (Some (BodyInfo.serial_number pkt))));;
  modify (with_ident (set_body_hw_version (Some (BodyInfo.body_hw_version pkt))));;
  modify (with_ident (set_body_color (Some (BodyInfo.body_color pkt))));;
  version ← robot_fw_sig_version;
  let supported := json_eq_int version FIRMWARE_VERSION in
  (if supported then _initialize_robot else mret tt);;
  dispatch EvtRobotFound [].

(** *** [wait_for_robot]

    [e.wait(timeout)] blocks the calling thread while the delivery thread
    goes on running handlers on the same client object. What the caller sees
    when the call returns is whether the event was set in time, and the
    client object as the delivery thread has left it by then: this is a
    [Wait], one for each of the two places where the method may block. *)
Definition Wait : Type := Client → bool * Client.

Definition Event_wait (w : Wait) : M bool :=
  λ c, let '(b, c') := w c in Ok b c'.

(** [not x] for an attribute that is [None] or a value. *)
Definition py_not {A : Type} (truthy : A → bool) (x : option A) : bool :=
  match x with
  | None => true
  | Some a => negb (truthy a)
  end.

(** Lines 245-249: wait for [EvtRobotFound] unless a signature is there. *)
Definition await_found (found : Wait) : M unit :=
  sig ← gets (λ c, robot_fw_sig (ident c));
  if py_not json_truthy sig then
    add_handler EvtRobotFound true;;
    set ← Event_wait found;
    if negb set then raise ConnectionTimeout else mret tt
  else mret tt.

(** Lines 251-252: the version check. *)
Definition check_version : M unit :=
  version ← robot_fw_sig_version;
  if negb (json_eq_int version FIRMWARE_VERSION)
  then raise UnsupportedFirmwareVersion else mret tt.

(** Lines 254-258: wait for [EvtRobotReady] unless the body serial number is set. *)
Definition await_ready (ready : Wait) : M unit :=
  sn ← gets (λ c, serial_number (ident c));
  if py_not (λ n, negb (n =? 0)) sn then
    add_handler EvtRobotReady true;;
    set ← Event_wait ready;
    if negb set then raise ConnectionTimeout else mret tt
  else mret tt.

Definition wait_for_robot (found ready : Wait) : M unit :=
  await_found found;;
  check_version;;
  await_ready ready.

(** ** Image reassembly *)

Definition _reset_partial_state : M unit :=
  modify (with_partial (λ _, initial_partial)).

(** [protocol_encoder.ImageEncoding(v)] and [ImageResolution(v)]: the member
    with that value, [ValueError] when there is none. *)
Definition ImageEncoding (v : Z) : M Z :=
  if decide (v ∈ ImageEncoding_values) then mret v else raise ValueError.
Definition ImageResolution (v : Z) : M Z :=
  if decide (v ∈ ImageResolution_values) then mret v else raise ValueError.

(** [camera.RESOLUTIONS[r]] *)
Definition RESOLUTIONS_getitem (r : option Z) : M (Z * Z) :=
  match r ≫= (λ v, RESOLUTIONS !! v) with
  | Some size => mret size
  | None => raise KeyError
  end.

(** A call into a codec that may raise. *)
Definition external {A : Type} (r : option A) : M A :=
  match r with
  | Some a => mret a
  | None => raise ExternalError
  end.

Definition _process_completed_image : M unit :=
  p ← gets partial;
  buf ← match _partial_data p with
        | Some a => mret a
        | None => raise TypeError
        end;
  let data := ndarray_getslice buf 0 (_partial_size p) in
  (* The first byte of the image is whether or not it is in color *)
  first_byte ← match data with
               | b :: _ => mret b
               | [] => raise IndexError
               end;
  let is_color_image := negb (first_byte =? 0) in
  data ← (if decide (_partial_image_encoding p = Some JPEGMinimizedGray) then
            '(width, height) ← RESOLUTIONS_getitem (_partial_image_resolution p);
            if is_color_image then
              (* Color images are half width *)
              let width := Z.div width 2 in
              external (minicolor_to_jpeg data width height)
            else
              external (minigray_to_jpeg data width height)
          else mret data);
  image ← external (Image_open_RGB data);
  (* Color images need to be resized to the proper resolution *)
  image ← (if is_color_image then
             size ← RESOLUTIONS_getitem (_partial_image_resolution p);
             external (Image_resize image size)
           else mret image);
  modify (with_camera (λ _, mkCamera (_partial_image_timestamp p) (Some image)));;
  dispatch EvtNewRawCameraImage [ArgImage image].

(** Lines 272-275: chunk 0 arriving while an image is open closes it. *)
Definition close_open_image (pkt : ImageChunk.t) : M unit :=
  p ← gets partial;
  if bool_decide (_partial_image_id p ≠ None) && (ImageChunk.chunk_id pkt =? 0)
  then modify (with_partial (set_partial_image_id None))
  else mret tt.

(** Lines 284-293: the state of a new image, opened by its chunk 0. *)
Definition open_image (pkt : ImageChunk.t) : M unit :=
  (* Discard any previous in-progress image *)
  _reset_partial_state;;
  modify (with_partial (set_partial_image_timestamp (Some (ImageChunk.frame_timestamp pkt))));;
  modify (with_partial (set_partial_image_id (Some (ImageChunk.image_id pkt))));;
  encoding ← ImageEncoding (ImageChunk.image_encoding pkt);
  modify (with_partial (set_partial_image_encoding (Some encoding)));;
  resolution ← ImageResolution (ImageChunk.image_resolution pkt);
  modify (with_partial (set_partial_image_resolution (Some resolution)));;
  image_resolution ← ImageResolution (ImageChunk.image_resolution pkt);
  '(width, height) ← RESOLUTIONS_getitem (Some image_resolution);
  let max_size := width * height * 3 in  (* 3 bytes per pixel (RGB) *)
  modify (with_partial (set_partial_data (Some (np_empty max_size)))).

(** Lines 295-309: the chunk is checked against the open image and stored. *)
Definition store_chunk (pkt : ImageChunk.t) : M unit :=
  p ← gets partial;
  if bool_decide (ImageChunk.chunk_id pkt ≠ _last_chunk_id p + 1)
     || bool_decide (Some (ImageChunk.image_id pkt) ≠ _partial_image_id p)
  then
    _reset_partial_state;;
    modify (with_partial (set_partial_invalid true))
  else
    let offset := _partial_size p in
    let n := Z.of_nat (length (ImageChunk.data pkt)) in
    buf ← match _partial_data p with
          | Some a => mret a
          | None => raise TypeError
          end;
    buf ← match ndarray_setslice buf offset (offset + n) (ImageChunk.data pkt) with
          | Some a => mret a
          | None => raise ValueError
          end;
    modify (with_partial (set_partial_data (Some buf)));;
    modify (with_partial (set_partial_size (offset + n)));;
    modify (with_partial (set_last_chunk_id (ImageChunk.chunk_id pkt)));;
    if ImageChunk.chunk_id pkt =? ImageChunk.image_chunk_count pkt - 1 then
      _process_completed_image;;
      _reset_partial_state
    else mret tt.

Definition _on_image_chunk (pkt : ImageChunk.t) : M unit :=
  close_open_image pkt;;
  p ← gets partial;
  match _partial_image_id p with
  | None =>
      if negb (ImageChunk.chunk_id pkt =? 0) then
        modify (with_partial (set_partial_invalid true))
      else
        open_image pkt;;
        store_chunk pkt
  | Some _ => store_chunk pkt
  end.

(** ** Robot state *)

(** A Python dict keeps its items in insertion order; assigning to a key that
    is present replaces the value where it stands. *)
Fixpoint dict_setitem {V : Type} (k : Z) (v : V) (d : list (Z * V)) : list (Z * V) :=
  match d with
  | [] => [(k, v)]
  | (k', v') :: rest =>
      if decide (k = k') then (k', v) :: rest else (k', v') :: dict_setitem k v rest
  end.

(** The dict a literal [{k1: v1, k2: v2, ...}] evaluates to. *)
Definition dict_literal {V : Type} (items : list (Z * V)) : list (Z * V) :=
  foldl (λ d kv, dict_setitem kv.1 kv.2 d) [] items.

(** The items of the literal [STATUS_EVTS], as written in [client.py]. *)
Definition STATUS_EVTS_literal : list (StatusFlag * EvtClass) :=
  [ (IS_MOVING, EvtRobotMovingChange);
    (IS_CARRYING_BLOCK, EvtRobotCarryingBlockChange);
    (IS_PICKING_OR_PLACING, EvtRobotPickingOrPlacingChange);
    (IS_PICKED_UP, EvtRobotPickedUpChange);
    (IS_BODY_ACC_MODE, EvtRobotBodyAccModeChange);
    (IS_FALLING, EvtRobotFallingChange);
    (IS_ANIMATING, EvtRobotAnimatingChange);
    (IS_PATHING, EvtRobotPathingChange);
    (LIFT_IN_POS, EvtRobotLiftInPositionChange);
    (HEAD_IN_POS, EvtRobotHeadInPositionChange);
    (IS_ANIM_BUFFER_FULL, EvtRobotAnimBufferFullChange);
    (IS_ANIMATING_IDLE, EvtRobotAnimatingChange);
    (IS_ON_CHARGER, EvtRobotOnChargerChange);
    (IS_CHARGING, EvtRobotChargingChange);
    (CLIFF_DETECTED, EvtCliffDetectedChange);
    (ARE_WHEELS_MOVING, EvtRobotWheelsMovingChange);
    (IS_CHARGER_OOS, EvtChargerOOSChange) ].

(** [STATUS_EVTS]: keyed by the flags' integer values; [.items()] is the list. *)
Definition STATUS_EVTS : list (Z * EvtClass) :=
  dict_literal (prod_map RobotStatusFlag id <$> STATUS_EVTS_literal).

(** [for x in l: body] *)
Fixpoint for_each {A : Type} (l : list A) (body : A → M unit) : M unit :=
  match l with
  | [] => mret tt
  | x :: l' => body x;; for_each l' body
  end.

(** [(old_status & flag) != (pkt.status & flag)] *)
Definition flag_differs (old_status new_status flag : Z) : bool :=
  negb (Z.land old_status flag =? Z.land new_status flag).

(** [(pkt.status & flag) != 0] *)
Definition flag_state (new_status flag : Z) : bool :=
  negb (Z.land new_status flag =? 0).

(** The body of the loop over [STATUS_EVTS.items()]. *)
Definition dispatch_flag_change (old_status new_status : Z) (item : Z * EvtClass) : M unit :=
  let '(flag, evt) := item in
  if flag_differs old_status new_status flag then
    let state := flag_state new_status flag in
    (* the arguments of logger.debug are evaluated before the call *)
    _ ← match RobotStatusFlagNames !! flag with
        | Some name => mret name
        | None => raise KeyError
        end;
    dispatch evt [ArgState state]
  else mret tt.

Definition _on_robot_state (pkt : RobotState.t) : M unit :=
  modify (with_telemetry (λ t,
    mkTelemetry
      (RobotState.pose_angle_rad pkt)
      (RobotState.pose_pitch_rad pkt)
      (RobotState.head_angle_rad pkt)
      (RobotState.lwheel_speed_mmps pkt)
      (RobotState.rwheel_speed_mmps pkt)
      (RobotState.lift_height_mm pkt)
      (RobotState.battery_voltage pkt)
      (RobotState.accel_x pkt, RobotState.accel_y pkt, RobotState.accel_z pkt)
      (RobotState.gyro_x pkt, RobotState.gyro_y pkt, RobotState.gyro_z pkt)
      (robot_status t)));;
  old_status ← gets (λ c, robot_status (telemetry c));
  modify (with_telemetry (λ t,
    mkTelemetry (pose_angle t) (pose_pitch t) (head_angle t) (left_wheel_speed t)
      (right_wheel_speed t) (lift_position t) (battery_voltage t) (accel t) (gyro t)
      (RobotState.status pkt)));;
  dispatch EvtRobotStateUpdated [];;
  (* Dispatch status flag change events. *)
  for_each STATUS_EVTS (dispatch_flag_change old_status (RobotState.status pkt)).

Definition _on_animation_state (pkt : AnimationState.t) : M unit :=
  modify (with_animation (λ _,
    mkAnimation
      (AnimationState.num_anim_bytes_played pkt)
      (AnimationState.num_audio_frames_played pkt)
      (AnimationState.enabled_anim_tracks pkt)
      (AnimationState.tag pkt)
      (AnimationState.client_drop_count pkt))).

(** ** Objects *)

(** [protocol_encoder.ObjectType(v)] *)
Definition ObjectType (v : Z) : M Z :=
  if decide (v ∈ ObjectType_values) then mret v else raise ValueError.

Definition _on_object_available (pkt : ObjectAvailable.t) : M unit :=
  let factory_id := ObjectAvailable.factory_id pkt in
  object_type ← ObjectType (ObjectAvailable.object_type pkt);
  let obj := mkObject factory_id object_type in
  objs ← gets available_objects;
  if bool_decide (objs !! factory_id = None) then
    modify (with_available_objects (λ m, <[factory_id := obj]> m))
  else mret tt.

Definition _on_object_connection_state (pkt : ObjectConnectionState.t) : M unit :=
  if ObjectConnectionState.connected pkt then
    (* Connected *)
    modify (with_connected_objects (λ m,
      <[ObjectConnectionState.object_id pkt :=
          mkConnectedObject (ObjectConnectionState.factory_id pkt)
            (ObjectConnectionState.object_type pkt)]> m))
  else
    (* Disconnected *)
    objs ← gets connected_objects;
    if bool_decide (objs !! ObjectConnectionState.object_id pkt ≠ None) then
      modify (with_connected_objects (λ m, delete (ObjectConnectionState.object_id pkt) m))
    else mret tt.

(** ** Packet routing

    [start] registers one handler per packet type with the connection, which
    calls it for each packet of that type it receives. *)
Definition handle (pkt : Incoming) : M unit :=
  match pkt with
  | InHardwareInfo p => _on_hardware_info p
  | InFirmwareSignature p => _on_firmware_signature p
  | InBodyInfo p => _on_body_info p
  | InImageChunk p => _on_image_chunk p
  | InRobotState p => _on_robot_state p
  | InAnimationState p => _on_animation_state p
  | InObjectAvailable p => _on_object_available p
  | InObjectConnectionState p => _on_object_connection_state p
  end.

(** Modelled from the spec: the connection's delivery loop is outside
    [client.py]. It runs the handlers one packet at a time on a single
    thread, and a handler that fails is reported without stopping the
    delivery of the packets that follow; the client object stays as the
    failed handler left it. *)
Fixpoint deliver (pkts : list Incoming) (c : Client) : Client :=
  match pkts with
  | [] => c
  | pkt :: rest => deliver rest (final (handle pkt c))
  end.

(** No handler raised while [pkts] were delivered. *)
Fixpoint delivered_cleanly (pkts : list Incoming) (c : Client) : bool :=
  match pkts with
  | [] => true
  | pkt :: rest => returned (handle pkt c) && delivered_cleanly rest (final (handle pkt c))
  end.

(** ** Observations used in the statements *)

(** The commands [_initialize_robot] sends, in order. *)
Definition initialization_commands : list Command :=
  [EnableBodyACC; EnableAnimationState] ++
  concat (replicate 7 [NextFrame; DisplayImage [63; 63]]).

(** How many times an event class has been dispatched. *)
Definition dispatch_count (evt : EvtClass) (c : Client) : nat :=
  length (filter (λ d, d.1 = evt) (dispatched (effects c))).

(** The flag events [_on_robot_state] owes for a change of status: one per item
    of the table whose masked bits differ, in the table's order. *)
Definition flag_events (table : list (Z * EvtClass)) (old_status new_status : Z)
    : list (EvtClass * list Arg) :=
  (λ item, (item.2, [ArgState (flag_state new_status item.1)])) <$>
  filter (λ item, flag_differs old_status new_status item.1 = true) table.

(** The client object after more commands have been sent and more events
    dispatched. *)
Definition logged (sent : list Command) (events : list (EvtClass * list Arg))
    (c : Client) : Client :=
  with_effects
    (λ e, mkEffects (conn_sent e ++ sent) (dispatched e ++ events) (handlers e)) c.

(** The client object after [self.add_handler(evt, ..., one_shot=True)]. *)
Definition subscribed (evt : EvtClass) (c : Client) : Client :=
  with_effects (λ e, mkEffects (conn_sent e) (dispatched e) (handlers e ++ [(evt, true)])) c.

(** The identity fields a body-info packet assigns. *)
Definition body_info_stored (pkt : BodyInfo.t) (c : Client) : Client :=
  with_ident (set_body_color (Some (BodyInfo.body_color pkt)))
    (with_ident (set_body_hw_version (Some (BodyInfo.body_hw_version pkt)))
       (with_ident (set_serial_number (Some (BodyInfo.serial_number pkt))) c)).

(** The partial state of an image just opened by its chunk 0, for a
    resolution of [width] by [height]. *)
Definition opened_partial (pkt : ImageChunk.t) (width height : Z) : Partial :=
  mkPartial
    (Some (ImageChunk.frame_timestamp pkt))
    (Some (np_empty (width * height * 3)))
    (Some (ImageChunk.image_id pkt))
    false
    0
    (Some (ImageChunk.image_encoding pkt))
    (Some (ImageChunk.image_resolution pkt))
    (-1).

(** *** Chunk runs in the history of delivered image chunks *)

(** [chunk_id == image_chunk_count - 1]: the chunk declares itself the last. *)
Definition is_last_chunk (p : ImageChunk.t) : bool :=
  ImageChunk.chunk_id p =? ImageChunk.image_chunk_count p - 1.

(** The chunks of [r] carry image id [i] and the indices [k], [k+1], ... *)
Fixpoint run_from (i k : Z) (r : list ImageChunk.t) : bool :=
  match r with
  | [] => true
  | p :: r' =>
      (ImageChunk.chunk_id p =? k) && (ImageChunk.image_id p =? i) && run_from i (k + 1) r'
  end.

(** A run 0, 1, ... of one image that no chunk has closed yet. *)
Definition open_run (i : Z) (r : list ImageChunk.t) : Prop :=
  r ≠ [] ∧ run_from i 0 r = true ∧ forallb (λ p, negb (is_last_chunk p)) r = true.

(** A run 0 .. N-1 of one image whose final chunk declares N chunks, none of
    the earlier chunks declaring itself the last. *)
Definition complete_frame (r : list ImageChunk.t) : Prop :=
  ∃ r0 p, r = r0 ++ [p]
    ∧ run_from (ImageChunk.image_id p) 0 r = true
    ∧ forallb (λ q, negb (is_last_chunk q)) r0 = true
    ∧ is_last_chunk p = true.

(** The contiguous segments of a stream. *)
Fixpoint prefixes {A : Type} (l : list A) : list (list A) :=
  match l with
  | [] => [[]]
  | x :: l' => [] :: (cons x <$> prefixes l')
  end.

Fixpoint segments {A : Type} (l : list A) : list (list A) :=
  match l with
  | [] => [[]]
  | _ :: l' => prefixes l ++ segments l'
  end.

(** The run of the specification, "a full, index-contiguous run of chunks
    0..N-1 (N the declared chunk count) sharing a single image id", read with
    N the count that the first chunk of the run declares. *)
Definition stated_run_by_first (r : list ImageChunk.t) : bool :=
  match r with
  | [] => false
  | q :: _ =>
      (Z.of_nat (length r) =? ImageChunk.image_chunk_count q)
      && run_from (ImageChunk.image_id q) 0 r
  end.

(** The same run, read with N the count that its final chunk declares. *)
Definition stated_run_by_last (r : list ImageChunk.t) : bool :=
  match last r with
  | None => false
  | Some q =>
      (Z.of_nat (length r) =? ImageChunk.image_chunk_count q)
      && run_from (ImageChunk.image_id q) 0 r
  end.

(** The two fields that decide what happens to the next chunk: the id of the
    open image and the index of the chunk stored last. *)
Definition open_image_of (c : Client) : option (Z * Z) :=
  (λ i, (i, _last_chunk_id (partial c))) <$> _partial_image_id (partial c).

(** What a chunk does to them when the handler returns, and whether the chunk
    completes an image. *)
Definition chunk_step (s : option (Z * Z)) (p : ImageChunk.t) : option (Z * Z) * bool :=
  let s := if ImageChunk.chunk_id p =? 0 then Some (ImageChunk.image_id p, -1) else s in
  match s with
  | None => (None, false)
  | Some (i, last) =>
      if (ImageChunk.chunk_id p =? last + 1) && (ImageChunk.image_id p =? i) then
        if is_last_chunk p then (None, true) else (Some (i, ImageChunk.chunk_id p), false)
      else (None, false)
  end.

Definition chunk_track (l : list ImageChunk.t) : option (Z * Z) :=
  foldl (λ s p, (chunk_step s p).1) None l.

(** *** What a packet makes the client send *)

(** The signature of the packet loads and has a version entry. *)
Definition signature_parses (pkt : FirmwareSignature.t) : bool :=
  match json_loads (FirmwareSignature.signature pkt) with
  | Some j =>
      match json_getitem j "version" with
      | inr _ => true
      | inl _ => false
      end
  | None => false
  end.

(** The client holds a signature whose version is the supported one. *)
Definition holds_supported_version (c : Client) : bool :=
  match robot_fw_sig (ident c) with
  | Some j =>
      match json_getitem j "version" with
      | inr v => json_eq_int v FIRMWARE_VERSION
      | inl _ => false
      end
  | None => false
  end.

Definition commands_for (pkt : Incoming) (c : Client) : list Command :=
  match pkt with
  | InFirmwareSignature p => if signature_parses p then [Enable; Enable] else []
  | InBodyInfo _ => if holds_supported_version c then initialization_commands else []
  | _ => []
  end.

(** A method body leaves an observation of the client as it was, whether it
    returns or raises. *)
Definition keeps {A B : Type} (f : Client → A) (m : M B) : Prop :=
  ∀ c, f (final (m c)) = f c.

(** The bytes carried by a list of chunks. *)
Definition payload_length (r : list ImageChunk.t) : Z :=
  foldr (λ p n, Z.of_nat (length (ImageChunk.data p)) + n) 0 r.

(** The client after lines 302-305 have stored a chunk in the buffer [buf]. *)
Definition chunk_stored (pkt : ImageChunk.t) (buf : ndarray) (c : Client) : Client :=
  with_partial (set_last_chunk_id (ImageChunk.chunk_id pkt))
    (with_partial
       (set_partial_size
          (_partial_size (partial c) + Z.of_nat (length (ImageChunk.data pkt))))
       (with_partial (set_partial_data (Some buf)) c)).

End Client.

(** ** A concrete environment for the examples

    The examples below run the handlers on concrete packets. They need
    concrete stand-ins for the imported modules: a parser that knows the
    three documents the examples use, a numpy array as the list of its
    bytes, and a codec that accepts every payload. *)

(** The character 34, which a JSON document puts around its keys. *)
Definition dquote : string :=
  String (Ascii.Ascii false true false false false true false false) EmptyString.

(** The document with the single key [version]. *)
Definition version_document (digits : string) : string :=
  "{" +:+ dquote +:+ "version" +:+ dquote +:+ ": " +:+ digits +:+ "}".

Definition example_json_loads (s : string) : option Json :=
  if String.eqb s (version_document "2381") then Some (JObject [("version", JInt 2381)])
  else if String.eqb s (version_document "2380") then Some (JObject [("version", JInt 2380)])
  else if String.eqb s "{}" then Some (JObject [])
  else None.

(** [a[i:j] = data] on a one-dimensional array, for [0 <= i <= j]: the slice
    is clipped to the array, a sequence of the slice's length is copied, a
    sequence of length 1 is broadcast, any other raises [ValueError]. *)
Definition example_setslice (a : list Z) (i j : Z) (data : list Z) : option (list Z) :=
  let len := Z.of_nat (length a) in
  let i' := Z.min i len in
  let j' := Z.max i' (Z.min j len) in
  let n := j' - i' in
  if n =? Z.of_nat (length data) then
    Some (take (Z.to_nat i') a ++ data ++ drop (Z.to_nat j') a)
  else
    match data with
    | [d] => Some (take (Z.to_nat i') a ++ replicate (Z.to_nat n) d ++ drop (Z.to_nat j') a)
    | _ => None
    end.

(** [a[i:j]] for [0 <= i <= j] *)
Definition example_getslice (a : list Z) (i j : Z) : list Z :=
  take (Z.to_nat (j - i)) (drop (Z.to_nat i) a).

(** The status flags as the bits 0, 1, ... in the order of their declaration. *)
Definition example_flag_bit (f : StatusFlag) : Z :=
  match f with
  | IS_MOVING => 0 | IS_CARRYING_BLOCK => 1 | IS_PICKING_OR_PLACING => 2
  | IS_PICKED_UP => 3 | IS_BODY_ACC_MODE => 4 | IS_FALLING => 5
  | IS_ANIMATING => 6 | IS_PATHING => 7 | LIFT_IN_POS => 8 | HEAD_IN_POS => 9
  | IS_ANIM_BUFFER_FULL => 10 | IS_ANIMATING_IDLE => 11 | IS_ON_CHARGER => 12
  | IS_CHARGING => 13 | CLIFF_DETECTED => 14 | ARE_WHEELS_MOVING => 15
  | IS_CHARGER_OOS => 16
  end.

Definition all_status_flags : list StatusFlag :=
  [ IS_MOVING; IS_CARRYING_BLOCK; IS_PICKING_OR_PLACING; IS_PICKED_UP; IS_BODY_ACC_MODE;
    IS_FALLING; IS_ANIMATING; IS_PATHING; LIFT_IN_POS; HEAD_IN_POS; IS_ANIM_BUFFER_FULL;
    IS_ANIMATING_IDLE; IS_ON_CHARGER; IS_CHARGING; CLIFF_DETECTED; ARE_WHEELS_MOVING;
    IS_CHARGER_OOS ].

Definition example_env : Externals := {|
  FIRMWARE_VERSION := 2381;
  json_loads := example_json_loads;
  ImageEncoding_values := seqZ 0 10;
  JPEGMinimizedGray := 8;
  ImageResolution_values := seqZ 0 15;
  ObjectType_values := seqZ (-1) 7;
  RESOLUTIONS := {[ 0 := (16, 16); 1 := (40, 30) ]};
  minicolor_to_jpeg := λ data _ _, Some data;
  minigray_to_jpeg := λ data _ _, Some data;
  RobotStatusFlag := λ f, 2 ^ example_flag_bit f;
  RobotStatusFlagNames :=
    list_to_map ((λ f, (2 ^ example_flag_bit f, "flag")) <$> all_status_flags);
  MIN_HEAD_ANGLE := 0%float;
  MIN_LIFT_HEIGHT := 32%float;
  ndarray := list Z;
  np_empty := λ n, replicate (Z.to_nat n) 0;
  ndarray_setslice := example_setslice;
  ndarray_getslice := example_getslice;
  Image := list Z;
  Image_open_RGB := λ data, Some data;
  Image_resize := λ image _, Some image |}.

(** Packets of the examples. *)
Definition example_hardware_info : HardwareInfo.t := HardwareInfo.mk 17.
Definition example_body_info : BodyInfo.t := BodyInfo.mk 305419896 5 2.
Definition supported_signature : FirmwareSignature.t :=
  FirmwareSignature.mk (version_document "2381").
Definition unsupported_signature : FirmwareSignature.t :=
  FirmwareSignature.mk (version_document "2380").

(** A robot-state packet with the given status, the robot at rest. *)
Definition example_robot_state (status : Z) : RobotState.t :=
  RobotState.mk 0%float 0%float 0%float 0%float 0%float 32%float 4%float
    0%float 0%float 0%float 0%float 0%float 0%float status.

(** An image chunk of image [id] with index [k] that declares [count] chunks. *)
Definition example_chunk (id k count : Z) (data : list Z) : ImageChunk.t :=
  ImageChunk.mk 1000 id 5 0 count k data.

(** * Theorems *)

(** Unfold the monad's operations in a goal that runs a method body. *)
Ltac run :=
  cbv [mbind mret M_bind M_ret gets modify raise conn_send dispatch add_handler
       external Event_wait];
  simpl.

(** ** Handshake *)

Section Handshake.
Context {ext : Externals}.

Lemma robot_fw_sig_version_ok (c : Client) (j v : Json) :
  robot_fw_sig (ident c) = Some j →
  json_getitem j "version" = inr v →
  robot_fw_sig_version c = Ok v c.
Proof.
  intros Hsig Hv. unfold robot_fw_sig_version. run. rewrite Hsig, Hv. reflexivity.
Qed.

Lemma robot_fw_sig_version_none (c : Client) :
  robot_fw_sig (ident c) = None →
  robot_fw_sig_version c = Raise TypeError c.
Proof. intros Hsig. unfold robot_fw_sig_version. run. rewrite Hsig. reflexivity. Qed.

Lemma json_getitem_error (j : Json) (key : string) (e : Exn) :
  json_getitem j key = inl e → e = KeyError ∨ e = TypeError.
Proof.
  destruct j; simpl; try (intros [= <-]; by right).
  destruct (dict_get key items); [discriminate|]. intros [= <-]. by left.
Qed.

Lemma bind_ok {A B : Type} (m : M A) (k : A → M B) (c c' : Client) (a : A) :
  m c = Ok a c' → (m ≫= k) c = k a c'.
Proof. intros H. cbv [mbind M_bind]. rewrite H. reflexivity. Qed.

Lemma logged_logged (s1 s2 : list Command) (d1 d2 : list (EvtClass * list Arg))
    (c : Client) :
  logged s2 d2 (logged s1 d1 c) = logged (s1 ++ s2) (d1 ++ d2) c.
Proof.
  unfold logged, with_effects. simpl. rewrite <- !app_assoc. reflexivity.
Qed.

Lemma logged_nil (c : Client) : logged [] [] c = c.
Proof.
  destruct c as [i t a cam ao co p [s d h]]. unfold logged, with_effects. simpl.
  rewrite !app_nil_r. reflexivity.
Qed.

Lemma conn_send_logged (pkt : Command) (c : Client) :
  conn_send pkt c = Ok tt (logged [pkt] [] c).
Proof.
  unfold conn_send, modify, logged, with_effects. simpl. rewrite app_nil_r. reflexivity.
Qed.

Lemma dispatch_logged (evt : EvtClass) (args : list Arg) (c : Client) :
  dispatch evt args c = Ok tt (logged [] [(evt, args)] c).
Proof.
  unfold dispatch, modify, logged, with_effects. simpl. rewrite app_nil_r. reflexivity.
Qed.

Lemma for_range_logged (n : nat) (body : M unit) (sent : list Command) :
  (∀ c, body c = Ok tt (logged sent [] c)) →
  ∀ c, for_range n body c = Ok tt (logged (concat (replicate n sent)) [] c).
Proof.
  intros Hbody. induction n as [|n IH]; intros c; simpl.
  - rewrite logged_nil. reflexivity.
  - rewrite (bind_ok _ _ _ _ _ (Hbody c)), IH, logged_logged. reflexivity.
Qed.

Lemma enable_robot_sends (c : Client) :
  _enable_robot c = Ok tt (logged [Enable; Enable] [] c).
Proof.
  unfold _enable_robot.
  rewrite (bind_ok _ _ _ _ _ (conn_send_logged _ c)), conn_send_logged, logged_logged.
  reflexivity.
Qed.

Lemma initialize_robot_sends (c : Client) :
  _initialize_robot c = Ok tt (logged initialization_commands [(EvtRobotReady, [])] c).
Proof.
  unfold _initialize_robot, initialization_commands.
  rewrite (bind_ok _ _ _ _ _ (conn_send_logged _ c)).
  rewrite (bind_ok _ _ _ _ _ (conn_send_logged _ _)).
  assert (Hpair : ∀ c', (conn_send NextFrame;; conn_send (DisplayImage [63; 63])) c'
                        = Ok tt (logged [NextFrame; DisplayImage [63; 63]] [] c')).
  { intros c'. rewrite (bind_ok _ _ _ _ _ (conn_send_logged _ c')), conn_send_logged,
      logged_logged. reflexivity. }
  rewrite (bind_ok _ _ _ _ _ (for_range_logged 7 _ _ Hpair _)).
  rewrite dispatch_logged, !logged_logged. reflexivity.
Qed.

Lemma on_firmware_signature_parsed
    (pkt : FirmwareSignature.t) (c : Client) (j v : Json) :
  json_loads (FirmwareSignature.signature pkt) = Some j →
  json_getitem j "version" = inr v →
  _on_firmware_signature pkt c =
  Ok tt (logged [Enable; Enable] [] (with_ident (set_robot_fw_sig (Some j)) c)).
Proof.
  intros Hj Hv. unfold _on_firmware_signature. rewrite Hj.
  cbv [mbind mret M_bind M_ret modify].
  rewrite (robot_fw_sig_version_ok _ j v) by done.
  apply enable_robot_sends.
Qed.

Lemma on_body_info_versioned (pkt : BodyInfo.t) (c : Client) (j v : Json) :
  robot_fw_sig (ident c) = Some j →
  json_getitem j "version" = inr v →
  _on_body_info pkt c =
  Ok tt (logged
           (if json_eq_int v FIRMWARE_VERSION then initialization_commands else [])
           ((if json_eq_int v FIRMWARE_VERSION then [(EvtRobotReady, [])] else [])
              ++ [(EvtRobotFound, [])])
           (body_info_stored pkt c)).
Proof.
  intros Hsig Hv. unfold _on_body_info.
  cbv [mbind mret M_bind M_ret modify]. fold (body_info_stored pkt c).
  rewrite (robot_fw_sig_version_ok _ j v) by done.
  destruct (json_eq_int v FIRMWARE_VERSION).
  - rewrite initialize_robot_sends, dispatch_logged, logged_logged, app_nil_r.
    reflexivity.
  - rewrite dispatch_logged. reflexivity.
Qed.

(** C7: when the signature of a firmware-signature packet parses (the JSON
    document loads and has a "version" entry), the handler returns having
    sent [Enable] exactly twice, the two sends adjacent at the end of the
    send log; it dispatches nothing and stores the parsed signature. *)
Theorem firmware_signature_enables_twice
    (pkt : FirmwareSignature.t) (c : Client) (j v : Json) :
  json_loads (FirmwareSignature.signature pkt) = Some j →
  json_getitem j "version" = inr v →
  ∃ c', _on_firmware_signature pkt c = Ok tt c'
    ∧ conn_sent (effects c') = conn_sent (effects c) ++ [Enable; Enable]
    ∧ dispatched (effects c') = dispatched (effects c)
    ∧ robot_fw_sig (ident c') = Some j.
Proof.
  intros Hj Hv. rewrite (on_firmware_signature_parsed pkt c j v Hj Hv).
  eexists. split; [reflexivity|]. simpl. rewrite app_nil_r. done.
Qed.




(** C5 (amended): a body-info packet sets the body serial number, hardware
    version and colour; the firmware version is compared next and, when it is
    the supported one, the initialization commands are sent and
    [EvtRobotReady] is dispatched; [EvtRobotFound] is dispatched last, whatever
    the version. In the supported case [EvtRobotReady] precedes
    [EvtRobotFound]. *)
Theorem body_info_dispatches_found_last
    (pkt : BodyInfo.t) (c : Client) (j v : Json) :
  robot_fw_sig (ident c) = Some j →
  json_getitem j "version" = inr v →
  let supported := json_eq_int v FIRMWARE_VERSION in
  ∃ c', _on_body_info pkt c = Ok tt c'
    ∧ serial_number (ident c') = Some (BodyInfo.serial_number pkt)
    ∧ body_hw_version (ident c') = Some (BodyInfo.body_hw_version pkt)
    ∧ body_color (ident c') = Some (BodyInfo.body_color pkt)
    ∧ conn_sent (effects c') =
        conn_sent (effects c) ++ (if supported then initialization_commands else [])
    ∧ dispatched (effects c') =
        dispatched (effects c)
        ++ (if supported then [(EvtRobotReady, [])] else [])
        ++ [(EvtRobotFound, [])].
Proof.
  intros Hsig Hv supported. rewrite (on_body_info_versioned pkt c j v Hsig Hv).
  eexists. split; [reflexivity|]. done.
Qed.

Lemma dispatch_count_app (evt : EvtClass) (c c' : Client) (l : list (EvtClass * list Arg)) :
  dispatched (effects c') = dispatched (effects c) ++ l →
  dispatch_count evt c' =
  (dispatch_count evt c + length (filter (λ d, d.1 = evt) l))%nat.
Proof.
  intros H. unfold dispatch_count. rewrite H, filter_app, length_app. reflexivity.
Qed.

(** C1 (amended): when the firmware-signature packet reports a version other
    than [FIRMWARE_VERSION], the handshake (hardware info, firmware signature,
    body info) still sends the two [Enable] commands, at the signature packet,
    where the version is not looked at; it sends no other command, so none of
    the initialization commands; [EvtRobotReady] is not dispatched and
    [EvtRobotFound] is dispatched exactly once. *)
Theorem handshake_unsupported_version
    (c0 : Client) (hw : HardwareInfo.t) (sig : FirmwareSignature.t)
    (body : BodyInfo.t) (j v : Json) :
  json_loads (FirmwareSignature.signature sig) = Some j →
  json_getitem j "version" = inr v →
  json_eq_int v FIRMWARE_VERSION = false →
  let c := deliver [InHardwareInfo hw; InFirmwareSignature sig; InBodyInfo body] c0 in
  conn_sent (effects c) = conn_sent (effects c0) ++ [Enable; Enable]
  ∧ dispatched (effects c) = dispatched (effects c0) ++ [(EvtRobotFound, [])]
  ∧ dispatch_count EvtRobotReady c = dispatch_count EvtRobotReady c0
  ∧ dispatch_count EvtRobotFound c = S (dispatch_count EvtRobotFound c0).
Proof.
  intros Hj Hv Hne c. subst c. cbn [deliver handle].
  set (c1 := final (_on_hardware_info hw c0)).
  rewrite (on_firmware_signature_parsed sig c1 j v Hj Hv). cbn [final].
  rewrite (on_body_info_versioned body _ j v) by done. cbn [final]. rewrite Hne.
  set (c3 := logged _ _ _).
  assert (Hs : conn_sent (effects c3) = conn_sent (effects c0) ++ [Enable; Enable]).
  { subst c3 c1. simpl. rewrite !app_nil_r. reflexivity. }
  assert (Hd : dispatched (effects c3) = dispatched (effects c0) ++ [(EvtRobotFound, [])]).
  { subst c3 c1. simpl. rewrite !app_nil_r. reflexivity. }
  split; [done|]. split; [done|].
  rewrite !(dispatch_count_app _ c0 c3 _ Hd).
  split.
  - rewrite filter_cons_False, filter_nil by (simpl; congruence). simpl. lia.
  - rewrite filter_cons_True, filter_nil by (simpl; congruence). simpl. lia.
Qed.

Lemma await_found_eq (found : Wait) (c : Client) :
  await_found found c =
  if py_not json_truthy (robot_fw_sig (ident c)) then
    if (found (subscribed EvtRobotFound c)).1
    then Ok tt (found (subscribed EvtRobotFound c)).2
    else Raise ConnectionTimeout (found (subscribed EvtRobotFound c)).2
  else Ok tt c.
Proof.
  unfold await_found. run.
  destruct (py_not json_truthy (robot_fw_sig (ident c))); [|reflexivity].
  fold (subscribed EvtRobotFound c).
  destruct (found (subscribed EvtRobotFound c)) as [[] c1]; reflexivity.
Qed.

Lemma await_ready_eq (ready : Wait) (c : Client) :
  await_ready ready c =
  if py_not (λ n, negb (n =? 0)) (serial_number (ident c)) then
    if (ready (subscribed EvtRobotReady c)).1
    then Ok tt (ready (subscribed EvtRobotReady c)).2
    else Raise ConnectionTimeout (ready (subscribed EvtRobotReady c)).2
  else Ok tt c.
Proof.
  unfold await_ready. run.
  destruct (py_not _ (serial_number (ident c))); [|reflexivity].
  fold (subscribed EvtRobotReady c).
  destruct (ready (subscribed EvtRobotReady c)) as [[] c1]; reflexivity.
Qed.

Lemma check_version_eq (c : Client) (j v : Json) :
  robot_fw_sig (ident c) = Some j →
  json_getitem j "version" = inr v →
  check_version c =
  if json_eq_int v FIRMWARE_VERSION then Ok tt c else Raise UnsupportedFirmwareVersion c.
Proof.
  intros Hsig Hv. unfold check_version. run.
  rewrite (robot_fw_sig_version_ok c j v) by done.
  destruct (json_eq_int v FIRMWARE_VERSION); reflexivity.
Qed.

(** C4: [wait_for_robot] runs three checks in sequence, each only when the
    one before it returned.
    (1) Without a firmware signature it subscribes a one-shot handler to
        [EvtRobotFound] and waits; when the wait times out it raises
        [ConnectionTimeout], and the later checks are not run.
    (2) At the version check, a version other than [FIRMWARE_VERSION] raises
        [UnsupportedFirmwareVersion] at once: nothing is subscribed, nothing
        is waited for.
    (3) Otherwise, without a body serial number, it subscribes a one-shot
        handler to [EvtRobotReady] and waits; when the wait times out it
        raises [ConnectionTimeout].
    The two errors are different exceptions. *)
Theorem wait_for_robot_checks (found ready : Wait) (c : Client) :
  (* the three checks in sequence *)
  wait_for_robot found ready c =
    match await_found found c with
    | Raise e c' => Raise e c'
    | Ok _ c1 =>
        match check_version c1 with
        | Raise e c' => Raise e c'
        | Ok _ c2 => await_ready ready c2
        end
    end
  (* (1) *)
  ∧ (py_not json_truthy (robot_fw_sig (ident c)) = true →
     handlers (effects (subscribed EvtRobotFound c)) =
       handlers (effects c) ++ [(EvtRobotFound, true)]
     ∧ ((found (subscribed EvtRobotFound c)).1 = false →
        wait_for_robot found ready c =
          Raise ConnectionTimeout (found (subscribed EvtRobotFound c)).2)
     ∧ ((found (subscribed EvtRobotFound c)).1 = true →
        await_found found c = Ok tt (found (subscribed EvtRobotFound c)).2))
  ∧ (py_not json_truthy (robot_fw_sig (ident c)) = false →
     await_found found c = Ok tt c)
  (* (2) *)
  ∧ (∀ j v, robot_fw_sig (ident c) = Some j →
     json_getitem j "version" = inr v →
     json_eq_int v FIRMWARE_VERSION = false →
     check_version c = Raise UnsupportedFirmwareVersion c
     ∧ (json_truthy j = true →
        wait_for_robot found ready c = Raise UnsupportedFirmwareVersion c))
  (* (3) *)
  ∧ (∀ j v, robot_fw_sig (ident c) = Some j →
     json_getitem j "version" = inr v →
     json_eq_int v FIRMWARE_VERSION = true →
     check_version c = Ok tt c
     ∧ (py_not (λ n, negb (n =? 0)) (serial_number (ident c)) = true →
        handlers (effects (subscribed EvtRobotReady c)) =
          handlers (effects c) ++ [(EvtRobotReady, true)]
        ∧ ((ready (subscribed EvtRobotReady c)).1 = false →
           await_ready ready c =
             Raise ConnectionTimeout (ready (subscribed EvtRobotReady c)).2)
        ∧ ((ready (subscribed EvtRobotReady c)).1 = true →
           await_ready ready c = Ok tt (ready (subscribed EvtRobotReady c)).2))
     ∧ (py_not (λ n, negb (n =? 0)) (serial_number (ident c)) = false →
        await_ready ready c = Ok tt c))
  ∧ ConnectionTimeout ≠ UnsupportedFirmwareVersion.
Proof.
  split; [|split; [|split; [|split; [|split]]]].
  - unfold wait_for_robot. cbv [mbind M_bind].
    destruct (await_found found c) as [[] c1|]; [|reflexivity].
    destruct (check_version c1) as [[] c2|]; reflexivity.
  - intros Hnot. split; [reflexivity|]. split; intros Hset.
    + unfold wait_for_robot. cbv [mbind M_bind].
      rewrite await_found_eq, Hnot, Hset. reflexivity.
    + rewrite await_found_eq, Hnot, Hset. reflexivity.
  - intros Hnot. rewrite await_found_eq, Hnot. reflexivity.
  - intros j v Hsig Hv Hne. rewrite (check_version_eq c j v Hsig Hv), Hne.
    split; [reflexivity|]. intros Htruthy.
    unfold wait_for_robot. cbv [mbind M_bind].
    rewrite await_found_eq, Hsig. simpl. rewrite Htruthy. simpl.
    rewrite (check_version_eq c j v Hsig Hv), Hne. reflexivity.
  - intros j v Hsig Hv Heq. rewrite (check_version_eq c j v Hsig Hv), Heq.
    split; [reflexivity|]. split.
    + intros Hnot. split; [reflexivity|].
      split; intros Hset; rewrite await_ready_eq, Hnot, Hset; reflexivity.
    + intros Hnot. rewrite await_ready_eq, Hnot. reflexivity.
  - discriminate.
Qed.

End Handshake.

(** *** The handshake on concrete packets

    In the examples the imported modules are those of [example_env]. *)

Section Handshake_examples.
#[local] Existing Instance example_env.

(** The theorem for C7 at the supported signature and a fresh client. *)
Lemma firmware_signature_enables_twice_example :
  json_loads (FirmwareSignature.signature supported_signature)
    = Some (JObject [("version", JInt 2381)])
  ∧ json_getitem (JObject [("version", JInt 2381)]) "version" = inr (JInt 2381)
  ∧ ∃ c', _on_firmware_signature supported_signature Client__init__
            = Ok tt c'
      ∧ conn_sent (effects c') = conn_sent (effects Client__init__) ++ [Enable; Enable]
      ∧ dispatched (effects c') = dispatched (effects Client__init__)
      ∧ robot_fw_sig (ident c') = Some (JObject [("version", JInt 2381)]).
Proof.
  split; [reflexivity|]. split; [reflexivity|].
  apply (firmware_signature_enables_twice supported_signature
           Client__init__ (JObject [("version", JInt 2381)]) (JInt 2381));
    reflexivity.
Defined.



(** A document that loads but has no "version" entry: the signature is
    stored, the lookup raises and nothing is sent. *)
Example firmware_signature_without_version :
  _on_firmware_signature (FirmwareSignature.mk "{}") Client__init__
  = Raise KeyError (with_ident (set_robot_fw_sig (Some (JObject []))) Client__init__).
Proof. vm_compute. reflexivity. Qed.

(** C5, as stated, fails: with the supported firmware version, the handshake
    dispatches [EvtRobotReady] first and [EvtRobotFound] after it. *)
Lemma body_info_ready_precedes_found :
  dispatched (effects (deliver
    [InHardwareInfo example_hardware_info;
     InFirmwareSignature supported_signature;
     InBodyInfo example_body_info] Client__init__))
  = [(EvtRobotReady, []); (EvtRobotFound, [])].
Proof. vm_compute. reflexivity. Qed.

(** The theorem for C5 at a client that holds the supported signature. *)
Lemma body_info_dispatches_found_last_example :
  let c := final (_on_firmware_signature supported_signature
                    Client__init__) in
  robot_fw_sig (ident c) = Some (JObject [("version", JInt 2381)])
  ∧ json_getitem (JObject [("version", JInt 2381)]) "version" = inr (JInt 2381)
  ∧ ∃ c', _on_body_info example_body_info c = Ok tt c'
      ∧ serial_number (ident c') = Some 305419896
      ∧ body_hw_version (ident c') = Some 5
      ∧ body_color (ident c') = Some 2
      ∧ conn_sent (effects c') = conn_sent (effects c) ++ initialization_commands
      ∧ dispatched (effects c') =
          dispatched (effects c) ++ [(EvtRobotReady, [])] ++ [(EvtRobotFound, [])].
Proof.
  split; [reflexivity|]. split; [reflexivity|].
  exact (body_info_dispatches_found_last example_body_info
           (final (_on_firmware_signature supported_signature Client__init__))
           (JObject [("version", JInt 2381)]) (JInt 2381) eq_refl eq_refl).
Defined.

(** C1, as stated, fails: the signature reports version 2380, the supported
    one is 2381, and the handshake has sent the two [Enable] commands. *)
Lemma unsupported_version_still_enables :
  json_loads (FirmwareSignature.signature unsupported_signature)
    = Some (JObject [("version", JInt 2380)])
  ∧ json_eq_int (JInt 2380) (FIRMWARE_VERSION) = false
  ∧ conn_sent (effects (deliver
      [InHardwareInfo example_hardware_info;
       InFirmwareSignature unsupported_signature;
       InBodyInfo example_body_info] Client__init__))
    = [Enable; Enable].
Proof. vm_compute. done. Qed.

(** The theorem for C1 at the unsupported signature and a fresh client. *)
Lemma handshake_unsupported_version_example :
  json_loads (FirmwareSignature.signature unsupported_signature)
    = Some (JObject [("version", JInt 2380)])
  ∧ json_getitem (JObject [("version", JInt 2380)]) "version" = inr (JInt 2380)
  ∧ json_eq_int (JInt 2380) (FIRMWARE_VERSION) = false
  ∧ conn_sent (effects (deliver
      [InHardwareInfo example_hardware_info;
       InFirmwareSignature unsupported_signature;
       InBodyInfo example_body_info] Client__init__))
    = conn_sent (effects (Client__init__)) ++ [Enable; Enable]
  ∧ dispatched (effects (deliver
      [InHardwareInfo example_hardware_info;
       InFirmwareSignature unsupported_signature;
       InBodyInfo example_body_info] Client__init__))
    = dispatched (effects (Client__init__)) ++ [(EvtRobotFound, [])].
Proof.
  split; [reflexivity|]. split; [reflexivity|]. split; [reflexivity|].
  pose proof (handshake_unsupported_version Client__init__
                example_hardware_info unsupported_signature example_body_info
                (JObject [("version", JInt 2380)]) (JInt 2380)
                eq_refl eq_refl eq_refl) as H.
  split; [exact (proj1 H)|exact (proj1 (proj2 H))].
Defined.

(** The theorem for C4 at a fresh client, whose first wait times out. *)
Lemma wait_for_robot_checks_example :
  py_not json_truthy (robot_fw_sig (ident (Client__init__))) = true
  ∧ wait_for_robot (λ c, (false, c)) (λ c, (true, c)) Client__init__
    = Raise ConnectionTimeout (subscribed EvtRobotFound Client__init__).
Proof.
  split; [reflexivity|].
  exact (proj1 (proj2 (proj1 (proj2
    (wait_for_robot_checks (λ c, (false, c)) (λ c, (true, c))
       Client__init__)) eq_refl)) eq_refl).
Defined.

End Handshake_examples.

(** ** Robot state *)

Section Robot_state.
Context {ext : Externals}.

Lemma dict_setitem_fresh {V : Type} (k : Z) (v : V) (d : list (Z * V)) :
  k ∉ d.*1 → dict_setitem k v d = d ++ [(k, v)].
Proof.
  induction d as [|[k' v'] d IH]; intros Hk; simpl; [reflexivity|].
  rewrite fmap_cons, not_elem_of_cons in Hk. destruct Hk as [Hne Hk].
  destruct (decide (k = k')) as [->|_]; [done|]. rewrite IH by done. reflexivity.
Qed.

Lemma dict_literal_from {V : Type} (items d : list (Z * V)) :
  NoDup (d.*1 ++ items.*1) →
  foldl (λ d kv, dict_setitem kv.1 kv.2 d) d items = d ++ items.
Proof.
  revert d. induction items as [|[k v] items IH]; intros d Hnd; simpl.
  - rewrite app_nil_r. reflexivity.
  - rewrite fmap_cons in Hnd. simpl in Hnd.
    rewrite dict_setitem_fresh.
    + rewrite IH; [rewrite <- app_assoc; reflexivity|].
      rewrite fmap_app, <- app_assoc. exact Hnd.
    + apply NoDup_app in Hnd as (_ & Hdisj & _). intros Hin.
      apply (Hdisj k Hin). left.
Qed.

(** When the flags have different values, the table holds the items of the
    literal in the order they are written. *)
Lemma STATUS_EVTS_declaration_order :
  NoDup (RobotStatusFlag <$> STATUS_EVTS_literal.*1) →
  STATUS_EVTS = prod_map RobotStatusFlag id <$> STATUS_EVTS_literal.
Proof.
  intros Hnd. unfold STATUS_EVTS, dict_literal.
  rewrite dict_literal_from; [reflexivity|]. simpl. exact Hnd.
Qed.

Lemma for_each_flag_events (table : list (Z * EvtClass)) (old_status new_status : Z)
    (c : Client) :
  (∀ flag evt, (flag, evt) ∈ table → is_Some (RobotStatusFlagNames !! flag)) →
  for_each table (dispatch_flag_change old_status new_status) c
  = Ok tt (logged [] (flag_events table old_status new_status) c).
Proof.
  revert c. induction table as [|[flag evt] table IH]; intros c Hnames.
  - simpl. unfold flag_events. simpl. rewrite logged_nil. reflexivity.
  - assert (Hhead : dispatch_flag_change old_status new_status (flag, evt) c
                    = Ok tt (logged []
                               (flag_events [(flag, evt)] old_status new_status) c)).
    { unfold dispatch_flag_change, flag_events.
      destruct (Hnames flag evt) as [name Hname]; [left|].
      destruct (flag_differs old_status new_status flag) eqn:Hd.
      - rewrite filter_cons_True by done. rewrite Hname.
        cbv [mbind mret M_bind M_ret]. rewrite dispatch_logged. reflexivity.
      - rewrite filter_cons_False by (simpl; congruence).
        rewrite filter_nil. simpl. rewrite logged_nil. reflexivity. }
    simpl. rewrite (bind_ok _ _ _ _ _ Hhead).
    rewrite IH by (intros f e Hin; apply (Hnames f e); right; exact Hin).
    rewrite logged_logged. unfold flag_events.
    change ((flag, evt) :: table) with ([(flag, evt)] ++ table).
    rewrite filter_app, fmap_app. reflexivity.
Qed.

(** [x & 2^k] keeps bit [k] of [x]. *)
Lemma land_pow2 (x k : Z) :
  0 ≤ k → Z.land x (2 ^ k) = if Z.testbit x k then 2 ^ k else 0.
Proof.
  intros Hk. apply Z.bits_inj'. intros n Hn.
  rewrite Z.land_spec, Z.pow2_bits_eqb by done.
  destruct (Z.eqb_spec k n) as [->|Hne].
  - destruct (Z.testbit x n); simpl.
    + rewrite Z.pow2_bits_eqb, Z.eqb_refl by done. reflexivity.
    + rewrite Z.bits_0. reflexivity.
  - rewrite andb_false_r. destruct (Z.testbit x k).
    + rewrite Z.pow2_bits_eqb by done. symmetry. by apply Z.eqb_neq.
    + rewrite Z.bits_0. reflexivity.
Qed.

Lemma flag_differs_bit (old_status new_status k : Z) :
  0 ≤ k →
  flag_differs old_status new_status (2 ^ k)
  = xorb (Z.testbit old_status k) (Z.testbit new_status k).
Proof.
  intros Hk. unfold flag_differs. rewrite !land_pow2 by done.
  assert (2 ^ k ≠ 0) by (apply Z.pow_nonzero; lia).
  destruct (Z.testbit old_status k), (Z.testbit new_status k); cbn [xorb].
  - rewrite Z.eqb_refl. reflexivity.
  - destruct (Z.eqb_spec (2 ^ k) 0); [done|reflexivity].
  - destruct (Z.eqb_spec 0 (2 ^ k)); [done|reflexivity].
  - reflexivity.
Qed.

Lemma flag_state_bit (new_status k : Z) :
  0 ≤ k → flag_state new_status (2 ^ k) = Z.testbit new_status k.
Proof.
  intros Hk. unfold flag_state. rewrite land_pow2 by done.
  assert (2 ^ k ≠ 0) by (apply Z.pow_nonzero; lia).
  destruct (Z.testbit new_status k); [|reflexivity].
  destruct (Z.eqb_spec (2 ^ k) 0); [done|reflexivity].
Qed.

(** C3: a robot-state packet stores the new status and dispatches
    [EvtRobotStateUpdated] once, then, in the order of the table, one event
    for each item of [STATUS_EVTS] whose flag differs between the old and
    the new status, carrying the flag's new value, and nothing for the other
    items; nothing else is dispatched and no command is sent. When the flags
    have different values the table is the literal in the order it is
    written, and for a flag that is one bit the comparison is that of the
    bit and the value carried is the new bit. *)
Theorem robot_state_dispatches_changed_flags (pkt : RobotState.t) (c : Client) :
  (∀ flag evt, (flag, evt) ∈ STATUS_EVTS → is_Some (RobotStatusFlagNames !! flag)) →
  (∃ c', _on_robot_state pkt c = Ok tt c'
     ∧ robot_status (telemetry c') = RobotState.status pkt
     ∧ dispatched (effects c') =
         dispatched (effects c)
         ++ [(EvtRobotStateUpdated, [])]
         ++ flag_events STATUS_EVTS (robot_status (telemetry c)) (RobotState.status pkt)
     ∧ conn_sent (effects c') = conn_sent (effects c))
  ∧ (∀ old_status new_status,
       flag_events STATUS_EVTS old_status new_status
       = (λ item, (item.2, [ArgState (flag_state new_status item.1)])) <$>
         filter (λ item, flag_differs old_status new_status item.1 = true) STATUS_EVTS)
  ∧ (NoDup (RobotStatusFlag <$> STATUS_EVTS_literal.*1) →
     STATUS_EVTS = prod_map RobotStatusFlag id <$> STATUS_EVTS_literal)
  ∧ (∀ old_status new_status k, 0 ≤ k →
       flag_differs old_status new_status (2 ^ k)
       = xorb (Z.testbit old_status k) (Z.testbit new_status k)
       ∧ flag_state new_status (2 ^ k) = Z.testbit new_status k).
Proof.
  intros Hnames. split; [|split; [|split]].
  - unfold _on_robot_state. cbv [mbind mret M_bind M_ret modify gets].
    rewrite dispatch_logged.
    match goal with
    | |- context [for_each _ _ ?c1] => rewrite (for_each_flag_events _ _ _ c1 Hnames)
    end.
    rewrite logged_logged. eexists. split; [reflexivity|]. simpl.
    rewrite app_nil_r. done.
  - reflexivity.
  - apply STATUS_EVTS_declaration_order.
  - intros old_status new_status k Hk.
    split; [by apply flag_differs_bit|by apply flag_state_bit].
Qed.

End Robot_state.

(** *** Robot state on concrete packets *)

Section Robot_state_examples.
#[local] Existing Instance example_env.

Lemma example_flag_names :
  ∀ flag evt, (flag, evt) ∈ STATUS_EVTS → is_Some (RobotStatusFlagNames !! flag).
Proof.
  assert (H : Forall (λ item, is_Some (RobotStatusFlagNames !! item.1)) STATUS_EVTS).
  { apply (bool_decide_unpack _). vm_compute. reflexivity. }
  intros flag evt Hin. rewrite Forall_forall in H. exact (H (flag, evt) Hin).
Defined.

(** A fresh client (status 0) receives status 0x1002: "carrying block" and
    "on charger" are set. *)
Example robot_state_two_flags :
  dispatched (effects (final (_on_robot_state (example_robot_state 4098) Client__init__)))
  = [ (EvtRobotStateUpdated, []);
      (EvtRobotCarryingBlockChange, [ArgState true]);
      (EvtRobotOnChargerChange, [ArgState true]) ].
Proof. vm_compute. reflexivity. Qed.

(** The same status again: the state update alone. *)
Example robot_state_same_status :
  dispatched (effects (deliver
    [InRobotState (example_robot_state 4098); InRobotState (example_robot_state 4098)]
    Client__init__))
  = [ (EvtRobotStateUpdated, []);
      (EvtRobotCarryingBlockChange, [ArgState true]);
      (EvtRobotOnChargerChange, [ArgState true]);
      (EvtRobotStateUpdated, []) ].
Proof. vm_compute. reflexivity. Qed.

(** The theorem for C3 at that packet and a fresh client. *)
Lemma robot_state_dispatches_changed_flags_example :
  (∀ flag evt, (flag, evt) ∈ STATUS_EVTS → is_Some (RobotStatusFlagNames !! flag))
  ∧ ∃ c', _on_robot_state (example_robot_state 4098) Client__init__ = Ok tt c'
      ∧ robot_status (telemetry c') = 4098
      ∧ dispatched (effects c') =
          dispatched (effects Client__init__)
          ++ [(EvtRobotStateUpdated, [])]
          ++ flag_events STATUS_EVTS (robot_status (telemetry Client__init__)) 4098
      ∧ conn_sent (effects c') = conn_sent (effects Client__init__).
Proof.
  split; [exact example_flag_names|].
  exact (proj1 (robot_state_dispatches_changed_flags (example_robot_state 4098)
                  Client__init__ example_flag_names)).
Defined.

(** C6: two flags of the table share one event class. [IS_ANIMATING] and
    [IS_ANIMATING_IDLE] both map to [EvtRobotAnimatingChange], and no flag
    maps to [EvtRobotAnimatingIdleChange], the class declared for the
    second; a change of bit 11 alone and a change of bit 6 alone dispatch
    the same events. *)
Lemma animating_flags_share_event_class :
  (IS_ANIMATING, EvtRobotAnimatingChange) ∈ STATUS_EVTS_literal
  ∧ (IS_ANIMATING_IDLE, EvtRobotAnimatingChange) ∈ STATUS_EVTS_literal
  ∧ (EvtRobotAnimatingIdleChange ∉ STATUS_EVTS_literal.*2)
  ∧ dispatched (effects (final (_on_robot_state (example_robot_state (2 ^ 11))
                                  Client__init__)))
    = [(EvtRobotStateUpdated, []); (EvtRobotAnimatingChange, [ArgState true])]
  ∧ dispatched (effects (final (_on_robot_state (example_robot_state (2 ^ 6))
                                  Client__init__)))
    = [(EvtRobotStateUpdated, []); (EvtRobotAnimatingChange, [ArgState true])].
Proof.
  split; [|split; [|split; [|split]]].
  - apply (bool_decide_unpack _). vm_compute. reflexivity.
  - apply (bool_decide_unpack _). vm_compute. reflexivity.
  - apply (bool_decide_unpack _). vm_compute. reflexivity.
  - vm_compute. reflexivity.
  - vm_compute. reflexivity.
Qed.

End Robot_state_examples.

(** ** Objects *)

Section Objects.
Context {ext : Externals}.

Lemma on_object_available_map (pkt : ObjectAvailable.t) (c : Client) :
  available_objects (final (_on_object_available pkt c)) =
  if decide (ObjectAvailable.object_type pkt ∈ ObjectType_values) then
    match available_objects c !! ObjectAvailable.factory_id pkt with
    | Some _ => available_objects c
    | None =>
        <[ObjectAvailable.factory_id pkt :=
            mkObject (ObjectAvailable.factory_id pkt) (ObjectAvailable.object_type pkt)]>
          (available_objects c)
    end
  else available_objects c.
Proof.
  unfold _on_object_available, ObjectType.
  destruct (decide (ObjectAvailable.object_type pkt ∈ ObjectType_values)); [|reflexivity].
  cbv [mbind mret M_bind M_ret gets modify].
  destruct (available_objects c !! ObjectAvailable.factory_id pkt) eqn:Hlook.
  - rewrite bool_decide_eq_false_2 by done. reflexivity.
  - rewrite bool_decide_eq_true_2 by done. reflexivity.
Qed.

Lemma on_object_available_keeps (pkt : ObjectAvailable.t) (c : Client) (fid : Z)
    (obj : Object) :
  available_objects c !! fid = Some obj →
  available_objects (final (_on_object_available pkt c)) !! fid = Some obj.
Proof.
  intros Hlook. rewrite on_object_available_map.
  destruct (decide _); [|done].
  destruct (available_objects c !! ObjectAvailable.factory_id pkt) eqn:Hpkt; [done|].
  rewrite lookup_insert_ne; [done|]. intros <-. congruence.
Qed.

Lemma deliver_object_available_keeps (pkts : list ObjectAvailable.t) (c : Client)
    (fid : Z) (obj : Object) :
  available_objects c !! fid = Some obj →
  available_objects (deliver (InObjectAvailable <$> pkts) c) !! fid = Some obj.
Proof.
  revert c. induction pkts as [|pkt pkts IH]; intros c Hlook; [done|].
  simpl. apply IH. by apply on_object_available_keeps.
Qed.

(** C9: an object-available packet whose factory id is a key of
    [available_objects] leaves the map as it is; handling a packet twice
    gives the map that handling it once gives; a record that is in the map
    stays what it is through any object-available packets; and the record
    of a factory id is the one its first discovery stored. *)
Theorem object_available_idempotent (pkt : ObjectAvailable.t) (c : Client) :
  (is_Some (available_objects c !! ObjectAvailable.factory_id pkt) →
   available_objects (final (_on_object_available pkt c)) = available_objects c)
  ∧ available_objects
      (final (_on_object_available pkt (final (_on_object_available pkt c))))
    = available_objects (final (_on_object_available pkt c))
  ∧ (∀ (pkts : list ObjectAvailable.t) (fid : Z) (obj : Object),
       available_objects c !! fid = Some obj →
       available_objects (deliver (InObjectAvailable <$> pkts) c) !! fid = Some obj)
  ∧ (available_objects c !! ObjectAvailable.factory_id pkt = None →
     ObjectAvailable.object_type pkt ∈ ObjectType_values →
     ∀ pkts : list ObjectAvailable.t,
       available_objects (deliver (InObjectAvailable <$> pkt :: pkts) c)
         !! ObjectAvailable.factory_id pkt
       = Some (mkObject (ObjectAvailable.factory_id pkt)
                 (ObjectAvailable.object_type pkt))).
Proof.
  split; [|split; [|split]].
  - intros [obj Hobj]. rewrite on_object_available_map, Hobj.
    destruct (decide _); reflexivity.
  - rewrite (on_object_available_map pkt (final _)).
    destruct (decide _) as [Hin|]; [|reflexivity].
    rewrite on_object_available_map. destruct (decide _); [|done].
    destruct (available_objects c !! ObjectAvailable.factory_id pkt) eqn:Hlook.
    + rewrite Hlook. reflexivity.
    + rewrite lookup_insert_eq. reflexivity.
  - intros pkts fid obj. apply deliver_object_available_keeps.
  - intros Hnone Hin pkts. rewrite fmap_cons. simpl.
    apply deliver_object_available_keeps.
    rewrite on_object_available_map, Hnone.
    destruct (decide _); [|done]. apply lookup_insert_eq.
Qed.

End Objects.

(** *** Objects on concrete packets *)

Section Objects_examples.
#[local] Existing Instance example_env.

(** Object 7 is discovered as type 1, then announced again as type 2. *)
Example object_available_twice :
  available_objects (deliver
    [InObjectAvailable (ObjectAvailable.mk 7 1); InObjectAvailable (ObjectAvailable.mk 7 2)]
    Client__init__)
  = {[ 7 := mkObject 7 1 ]}.
Proof. vm_compute. reflexivity. Qed.

(** The theorem for C9 at a client that knows object 7. *)
Lemma object_available_idempotent_example :
  is_Some (available_objects
             (final (_on_object_available (ObjectAvailable.mk 7 1) Client__init__)) !! 7)
  ∧ available_objects
      (final (_on_object_available (ObjectAvailable.mk 7 2)
                (final (_on_object_available (ObjectAvailable.mk 7 1) Client__init__))))
    = available_objects
        (final (_on_object_available (ObjectAvailable.mk 7 1) Client__init__)).
Proof.
  assert (H : is_Some (available_objects
             (final (_on_object_available (ObjectAvailable.mk 7 1) Client__init__)) !! 7)).
  { eexists. vm_compute. reflexivity. }
  split; [exact H|].
  exact (proj1 (object_available_idempotent (ObjectAvailable.mk 7 2)
                  (final (_on_object_available (ObjectAvailable.mk 7 1) Client__init__)))
           H).
Defined.

End Objects_examples.

(** ** Image reassembly *)

(** *** Runs of chunks in a history *)

Lemma run_from_app (i k : Z) (r1 r2 : list ImageChunk.t) :
  run_from i k (r1 ++ r2) = run_from i k r1 && run_from i (k + Z.of_nat (length r1)) r2.
Proof.
  revert k. induction r1 as [|p r1 IH]; intros k; cbn [app run_from length].
  - rewrite Z.add_0_r. reflexivity.
  - rewrite IH, Nat2Z.inj_succ, <- !andb_assoc.
    replace (k + 1 + Z.of_nat (length r1)) with (k + Z.succ (Z.of_nat (length r1))) by lia.
    reflexivity.
Qed.

Lemma run_from_snoc (i : Z) (r : list ImageChunk.t) (p : ImageChunk.t) :
  run_from i 0 (r ++ [p]) = true ↔
  run_from i 0 r = true
  ∧ ImageChunk.chunk_id p = Z.of_nat (length r)
  ∧ ImageChunk.image_id p = i.
Proof.
  rewrite run_from_app. simpl. rewrite andb_true_r, !andb_true_iff, !Z.eqb_eq. tauto.
Qed.

Lemma suffix_snoc_cases {A : Type} (r l : list A) (x : A) :
  r `suffix_of` l ++ [x] → r = [] ∨ ∃ r0, r = r0 ++ [x] ∧ r0 `suffix_of` l.
Proof.
  intros Hsuf. destruct r as [|y r' _] using rev_ind; [by left|right].
  pose proof (suffix_snoc_inv_1 _ _ _ _ Hsuf) as ->.
  exists r'. split; [reflexivity|]. by apply suffix_snoc_inv_2 in Hsuf.
Qed.

Lemma chunk_track_snoc (l : list ImageChunk.t) (p : ImageChunk.t) :
  chunk_track (l ++ [p]) = (chunk_step (chunk_track l) p).1.
Proof. unfold chunk_track. rewrite foldl_snoc. reflexivity. Qed.

(** What [chunk_step] does, case by case. *)
Lemma chunk_step_first (s : option (Z * Z)) (p : ImageChunk.t) :
  ImageChunk.chunk_id p = 0 →
  chunk_step s p =
  if is_last_chunk p then (None, true) else (Some (ImageChunk.image_id p, 0), false).
Proof.
  intros H0. unfold chunk_step. rewrite H0. simpl. rewrite Z.eqb_refl. simpl.
  destruct (is_last_chunk p); reflexivity.
Qed.

Lemma chunk_step_closed (p : ImageChunk.t) :
  ImageChunk.chunk_id p ≠ 0 → chunk_step None p = (None, false).
Proof.
  intros H0. unfold chunk_step. apply Z.eqb_neq in H0. rewrite H0. reflexivity.
Qed.

Lemma chunk_step_next (i last : Z) (p : ImageChunk.t) :
  ImageChunk.chunk_id p ≠ 0 →
  chunk_step (Some (i, last)) p =
  if (ImageChunk.chunk_id p =? last + 1) && (ImageChunk.image_id p =? i) then
    if is_last_chunk p then (None, true) else (Some (i, ImageChunk.chunk_id p), false)
  else (None, false).
Proof.
  intros H0. unfold chunk_step. apply Z.eqb_neq in H0. rewrite H0. reflexivity.
Qed.

(** The tracked fields name an open image exactly when the history ends with
    an open run of that image. *)
Lemma chunk_track_open_run (l : list ImageChunk.t) (i m : Z) :
  chunk_track l = Some (i, m) ↔
  ∃ r, r `suffix_of` l ∧ open_run i r ∧ m = Z.of_nat (length r) - 1.
Proof.
  revert i m. induction l as [|p l IH] using rev_ind; intros i m.
  { split; [discriminate|]. intros (r & Hsuf & (Hne & _) & _).
    apply suffix_nil_inv in Hsuf. done. }
  rewrite chunk_track_snoc.
  destruct (decide (ImageChunk.chunk_id p = 0)) as [H0|H0].
  - rewrite chunk_step_first by done. split.
    + destruct (is_last_chunk p) eqn:Hlast; [discriminate|]. simpl.
      intros [= <- <-]. exists [p]. split; [by apply suffix_app_r|].
      split; [|reflexivity]. split; [done|]. simpl.
      rewrite H0, Hlast, !Z.eqb_refl. done.
    + intros (r & Hsuf & (Hne & Hrun & Hopen) & ->).
      apply suffix_snoc_cases in Hsuf as [->|(r0 & -> & Hsuf)]; [done|].
      apply run_from_snoc in Hrun as (_ & Hlen & Hid).
      rewrite forallb_app in Hopen. apply andb_true_iff in Hopen as [_ Hp].
      simpl in Hp. rewrite andb_true_r in Hp. apply negb_true_iff in Hp.
      rewrite Hp. simpl. rewrite length_app. simpl. f_equal. f_equal; lia.
  - destruct (chunk_track l) as [[i' last]|] eqn:Htrack.
    + rewrite chunk_step_next by done. split.
      * destruct ((ImageChunk.chunk_id p =? last + 1) && (ImageChunk.image_id p =? i'))
          eqn:Hmatch; [|discriminate].
        destruct (is_last_chunk p) eqn:Hlast; [discriminate|]. simpl.
        intros [= <- <-].
        apply andb_true_iff in Hmatch as [Hidx Hid].
        apply Z.eqb_eq in Hidx. apply Z.eqb_eq in Hid.
        destruct (proj1 (IH i' last) eq_refl) as (r0 & Hsuf & (Hne & Hrun & Hopen) & Hm).
        exists (r0 ++ [p]). split; [by apply suffix_app|].
        split; [|rewrite length_app; simpl; lia].
        split; [by destruct r0|]. split.
        -- apply run_from_snoc. split; [done|]. split; [lia|done].
        -- rewrite forallb_app, Hopen. simpl. rewrite Hlast. reflexivity.
      * intros (r & Hsuf & (Hne & Hrun & Hopen) & ->).
        apply suffix_snoc_cases in Hsuf as [->|(r0 & -> & Hsuf)]; [done|].
        apply run_from_snoc in Hrun as (Hrun & Hlen & Hid).
        rewrite forallb_app in Hopen. apply andb_true_iff in Hopen as [Hopen Hp].
        simpl in Hp. rewrite andb_true_r in Hp. apply negb_true_iff in Hp.
        assert (Hne0 : r0 ≠ []) by (intros ->; simpl in Hlen; lia).
        assert (Htr : Some (i', last) = Some (i, Z.of_nat (length r0) - 1)).
        { apply IH. exists r0. done. }
        injection Htr as -> ->.
        rewrite Hp.
        replace (ImageChunk.chunk_id p =? Z.of_nat (length r0) - 1 + 1) with true
          by (symmetry; apply Z.eqb_eq; lia).
        replace (ImageChunk.image_id p =? i) with true
          by (symmetry; apply Z.eqb_eq; lia).
        simpl. rewrite length_app. simpl. f_equal. f_equal. lia.
    + rewrite chunk_step_closed by done. split; [discriminate|].
      intros (r & Hsuf & (Hne & Hrun & Hopen) & ->).
      apply suffix_snoc_cases in Hsuf as [->|(r0 & -> & Hsuf)]; [done|].
      apply run_from_snoc in Hrun as (Hrun & Hlen & Hid).
      rewrite forallb_app in Hopen. apply andb_true_iff in Hopen as [Hopen _].
      assert (Hne0 : r0 ≠ []) by (intros ->; simpl in Hlen; lia).
      assert (Htr : None = Some (i, Z.of_nat (length r0) - 1)).
      { apply IH. exists r0. done. }
      discriminate.
Qed.

(** A chunk completes an image exactly when it ends a complete frame. *)
Lemma chunk_step_complete_frame (pre : list ImageChunk.t) (p : ImageChunk.t) :
  (chunk_step (chunk_track pre) p).2 = true ↔
  ∃ r, r `suffix_of` pre ++ [p] ∧ complete_frame r.
Proof.
  destruct (decide (ImageChunk.chunk_id p = 0)) as [H0|H0].
  - rewrite chunk_step_first by done. split.
    + destruct (is_last_chunk p) eqn:Hlast; [|discriminate]. intros _.
      exists [p]. split; [by apply suffix_app_r|].
      exists [], p. simpl. rewrite H0, !Z.eqb_refl. done.
    + intros (r & Hsuf & (r0 & q & -> & Hrun & Hopen & Hlast)).
      apply suffix_snoc_inv_1 in Hsuf as ->. rewrite Hlast. reflexivity.
  - split.
    + destruct (chunk_track pre) as [[i last]|] eqn:Htrack;
        [|by rewrite chunk_step_closed].
      rewrite chunk_step_next by done.
      destruct ((ImageChunk.chunk_id p =? last + 1) && (ImageChunk.image_id p =? i))
        eqn:Hmatch; [|discriminate].
      destruct (is_last_chunk p) eqn:Hlast; [|discriminate]. intros _.
      apply andb_true_iff in Hmatch as [Hidx Hid].
      apply Z.eqb_eq in Hidx. apply Z.eqb_eq in Hid.
      destruct (proj1 (chunk_track_open_run pre i last) Htrack)
        as (r0 & Hsuf & (Hne & Hrun & Hopen) & Hm).
      exists (r0 ++ [p]). split; [by apply suffix_app|].
      exists r0, p. split; [reflexivity|]. split; [|done].
      apply run_from_snoc. rewrite Hid. split; [done|]. split; [lia|done].
    + intros (r & Hsuf & (r0 & q & -> & Hrun & Hopen & Hlast)).
      pose proof (suffix_snoc_inv_1 _ _ _ _ Hsuf) as ->.
      apply suffix_snoc_inv_2 in Hsuf.
      apply run_from_snoc in Hrun as (Hrun & Hlen & _).
      assert (Hne0 : r0 ≠ []) by (intros ->; simpl in Hlen; lia).
      assert (Htr : chunk_track pre
                    = Some (ImageChunk.image_id p, Z.of_nat (length r0) - 1)).
      { apply chunk_track_open_run. exists r0. done. }
      rewrite Htr, chunk_step_next by done. rewrite Hlast.
      replace (ImageChunk.chunk_id p =? Z.of_nat (length r0) - 1 + 1) with true
        by (symmetry; apply Z.eqb_eq; lia).
      rewrite Z.eqb_refl. reflexivity.
Qed.

(** *** The handler *)

Section Image.
Context {ext : Externals}.

(** Finalisation either raises, leaving the client object as it was, or stores
    the image with the partial timestamp and dispatches it, once. *)
Lemma process_completed_image_cases (c : Client) :
  match _process_completed_image c with
  | Ok _ c' =>
      ∃ image, c' = logged [] [(EvtNewRawCameraImage, [ArgImage image])]
                      (with_camera
                         (λ _, mkCamera (_partial_image_timestamp (partial c)) (Some image))
                         c)
  | Raise _ c' => c' = c
  end.
Proof.
  unfold _process_completed_image, RESOLUTIONS_getitem, external.
  cbv [mbind mret M_bind M_ret gets modify raise].
  repeat (case_match; simplify_eq; try reflexivity).
  all: rewrite dispatch_logged in *; simplify_eq; eexists; reflexivity.
Qed.

Lemma open_image_reset (pkt : ImageChunk.t) (f : Partial → Partial) (c : Client) :
  open_image pkt (with_partial f c) = open_image pkt c.
Proof. reflexivity. Qed.

Lemma on_image_chunk_first (pkt : ImageChunk.t) (c : Client) :
  ImageChunk.chunk_id pkt = 0 →
  _on_image_chunk pkt c = (open_image pkt;; store_chunk pkt) c.
Proof.
  intros H0. unfold _on_image_chunk, close_open_image.
  cbv [mbind mret M_bind M_ret gets modify]. rewrite H0. simpl.
  destruct (_partial_image_id (partial c)) eqn:Hid; simpl.
  - rewrite open_image_reset. reflexivity.
  - rewrite Hid. reflexivity.
Qed.

Lemma on_image_chunk_closed (pkt : ImageChunk.t) (c : Client) :
  ImageChunk.chunk_id pkt ≠ 0 →
  _partial_image_id (partial c) = None →
  _on_image_chunk pkt c = Ok tt (with_partial (set_partial_invalid true) c).
Proof.
  intros H0 Hid. unfold _on_image_chunk, close_open_image.
  cbv [mbind mret M_bind M_ret gets modify]. rewrite Hid. simpl. rewrite Hid.
  apply Z.eqb_neq in H0. rewrite H0. reflexivity.
Qed.

Lemma on_image_chunk_next (pkt : ImageChunk.t) (c : Client) (i : Z) :
  ImageChunk.chunk_id pkt ≠ 0 →
  _partial_image_id (partial c) = Some i →
  _on_image_chunk pkt c = store_chunk pkt c.
Proof.
  intros H0 Hid. unfold _on_image_chunk, close_open_image.
  cbv [mbind mret M_bind M_ret gets modify]. rewrite Hid.
  apply Z.eqb_neq in H0. rewrite H0, andb_false_r. rewrite Hid. reflexivity.
Qed.

Lemma open_image_ok (pkt : ImageChunk.t) (c : Client) (width height : Z) :
  ImageChunk.image_encoding pkt ∈ ImageEncoding_values →
  ImageChunk.image_resolution pkt ∈ ImageResolution_values →
  RESOLUTIONS !! ImageChunk.image_resolution pkt = Some (width, height) →
  open_image pkt c = Ok tt (with_partial (λ _, opened_partial pkt width height) c).
Proof.
  intros Henc Hres Hsize. unfold open_image, ImageEncoding, ImageResolution,
    RESOLUTIONS_getitem, _reset_partial_state.
  rewrite !decide_True by done.
  cbv [mbind mret M_bind M_ret modify raise option_bind]. rewrite Hsize.
  reflexivity.
Qed.

Lemma open_image_returned (pkt : ImageChunk.t) (c : Client) :
  returned (open_image pkt c) = true →
  ∃ width height,
    open_image pkt c = Ok tt (with_partial (λ _, opened_partial pkt width height) c).
Proof.
  unfold open_image, ImageEncoding, ImageResolution, RESOLUTIONS_getitem,
    _reset_partial_state.
  cbv [mbind mret M_bind M_ret modify raise option_bind].
  destruct (decide (ImageChunk.image_encoding pkt ∈ ImageEncoding_values));
    [|discriminate].
  destruct (decide (ImageChunk.image_resolution pkt ∈ ImageResolution_values));
    [|discriminate].
  destruct (RESOLUTIONS !! ImageChunk.image_resolution pkt) as [[width height]|];
    [|discriminate].
  intros _. exists width, height. reflexivity.
Qed.

(** The test of line 295 on a client whose open image is [i]. *)
Lemma chunk_mismatch_test (pkt : ImageChunk.t) (c : Client) (i : Z) :
  _partial_image_id (partial c) = Some i →
  bool_decide (ImageChunk.chunk_id pkt ≠ _last_chunk_id (partial c) + 1)
  || bool_decide (Some (ImageChunk.image_id pkt) ≠ _partial_image_id (partial c))
  = negb ((ImageChunk.chunk_id pkt =? _last_chunk_id (partial c) + 1)
          && (ImageChunk.image_id pkt =? i)).
Proof.
  intros ->.
  destruct (Z.eqb_spec (ImageChunk.chunk_id pkt) (_last_chunk_id (partial c) + 1)),
    (Z.eqb_spec (ImageChunk.image_id pkt) i); simpl;
    repeat case_bool_decide; simplify_eq; done.
Qed.

Lemma store_chunk_mismatch (pkt : ImageChunk.t) (c : Client) (i : Z) :
  _partial_image_id (partial c) = Some i →
  (ImageChunk.chunk_id pkt =? _last_chunk_id (partial c) + 1)
  && (ImageChunk.image_id pkt =? i) = false →
  store_chunk pkt c
  = Ok tt (with_partial (λ _, set_partial_invalid true initial_partial) c).
Proof.
  intros Hid Hmis. unfold store_chunk. cbv [mbind mret M_bind M_ret gets].
  rewrite (chunk_mismatch_test pkt c i Hid), Hmis. reflexivity.
Qed.

(** A chunk that fits the open image and is stored without an exception. *)
Lemma store_chunk_match (pkt : ImageChunk.t) (c : Client) (i : Z) :
  _partial_image_id (partial c) = Some i →
  (ImageChunk.chunk_id pkt =? _last_chunk_id (partial c) + 1)
  && (ImageChunk.image_id pkt =? i) = true →
  returned (store_chunk pkt c) = true →
  let c' := final (store_chunk pkt c) in
  if is_last_chunk pkt then
    partial c' = initial_partial
    ∧ ∃ image, dispatched (effects c')
               = dispatched (effects c) ++ [(EvtNewRawCameraImage, [ArgImage image])]
  else
    _partial_image_id (partial c') = Some i
    ∧ _last_chunk_id (partial c') = ImageChunk.chunk_id pkt
    ∧ _partial_size (partial c')
      = _partial_size (partial c) + Z.of_nat (length (ImageChunk.data pkt))
    ∧ dispatched (effects c') = dispatched (effects c).
Proof.
  intros Hid Hmatch. unfold store_chunk. cbv [mbind mret M_bind M_ret gets modify raise].
  rewrite (chunk_mismatch_test pkt c i Hid), Hmatch. simpl.
  destruct (_partial_data (partial c)) as [buf|]; [|discriminate].
  destruct (ndarray_setslice _ _ _ _) as [buf'|]; [|discriminate].
  unfold is_last_chunk.
  destruct (ImageChunk.chunk_id pkt =? ImageChunk.image_chunk_count pkt - 1).
  - match goal with
    | |- context [_process_completed_image ?c1] =>
        pose proof (process_completed_image_cases c1) as Hdone;
        destruct (_process_completed_image c1) as [[] c2|e c2]
    end; [|discriminate].
    intros _. destruct Hdone as [image ->]. simpl.
    split; [reflexivity|]. exists image. reflexivity.
  - intros _. simpl. rewrite Hid. done.
Qed.

(** One chunk, handled without an exception, moves the tracked fields as
    [chunk_step] says and dispatches one image exactly when [chunk_step]
    says the chunk completes one. *)
Lemma on_image_chunk_step (pkt : ImageChunk.t) (c : Client) :
  returned (_on_image_chunk pkt c) = true →
  open_image_of (final (_on_image_chunk pkt c)) = (chunk_step (open_image_of c) pkt).1
  ∧ ∃ images,
      dispatched (effects (final (_on_image_chunk pkt c)))
      = dispatched (effects c)
        ++ ((λ image, (EvtNewRawCameraImage, [ArgImage image])) <$> images)
      ∧ length images = if (chunk_step (open_image_of c) pkt).2 then 1%nat else 0%nat.
Proof.
  destruct (decide (ImageChunk.chunk_id pkt = 0)) as [H0|H0].
  - rewrite on_image_chunk_first, chunk_step_first by done.
    cbv [mbind M_bind].
    destruct (open_image pkt c) as [[] c1|e c1] eqn:Hopen; [|discriminate].
    destruct (open_image_returned pkt c) as (w & h & Hopened);
      [by rewrite Hopen|].
    rewrite Hopen in Hopened. injection Hopened as ->.
    set (c1 := with_partial _ c). intros Hret.
    assert (Hid : _partial_image_id (partial c1) = Some (ImageChunk.image_id pkt))
      by reflexivity.
    assert (Hmatch : (ImageChunk.chunk_id pkt =? _last_chunk_id (partial c1) + 1)
                     && (ImageChunk.image_id pkt =? ImageChunk.image_id pkt) = true).
    { rewrite H0, !Z.eqb_refl. reflexivity. }
    pose proof (store_chunk_match pkt c1 _ Hid Hmatch Hret) as Hstore.
    cbv zeta in Hstore. destruct (is_last_chunk pkt).
    + destruct Hstore as [Hpartial [image Hdisp]]. split.
      * unfold open_image_of. rewrite Hpartial. reflexivity.
      * exists [image]. split; [exact Hdisp|reflexivity].
    + destruct Hstore as (Hid' & Hlast' & _ & Hdisp). split.
      * unfold open_image_of. rewrite Hid', Hlast', H0. reflexivity.
      * exists []. split; [|reflexivity]. rewrite Hdisp. simpl.
        rewrite app_nil_r. reflexivity.
  - destruct (_partial_image_id (partial c)) as [i|] eqn:Hid.
    + rewrite (on_image_chunk_next pkt c i) by done.
      assert (Hopen : open_image_of c = Some (i, _last_chunk_id (partial c))).
      { unfold open_image_of. rewrite Hid. reflexivity. }
      rewrite Hopen, chunk_step_next by done.
      destruct ((ImageChunk.chunk_id pkt =? _last_chunk_id (partial c) + 1)
                && (ImageChunk.image_id pkt =? i)) eqn:Hmatch.
      * intros Hret.
        pose proof (store_chunk_match pkt c i Hid Hmatch Hret) as Hstore.
        cbv zeta in Hstore. destruct (is_last_chunk pkt).
        -- destruct Hstore as [Hpartial [image Hdisp]]. split.
           ++ unfold open_image_of. rewrite Hpartial. reflexivity.
           ++ exists [image]. split; [exact Hdisp|reflexivity].
        -- destruct Hstore as (Hid' & Hlast' & _ & Hdisp). split.
           ++ unfold open_image_of. rewrite Hid', Hlast'. reflexivity.
           ++ exists []. split; [|reflexivity]. rewrite Hdisp. simpl.
              rewrite app_nil_r. reflexivity.
      * rewrite (store_chunk_mismatch pkt c i) by done. intros _. split.
        -- reflexivity.
        -- exists []. split; [|reflexivity]. simpl. rewrite app_nil_r. reflexivity.
    + rewrite on_image_chunk_closed by done.
      assert (Hopen : open_image_of c = None).
      { unfold open_image_of. rewrite Hid. reflexivity. }
      rewrite Hopen, chunk_step_closed by done. intros _. split.
      * unfold open_image_of. simpl. rewrite Hid. reflexivity.
      * exists []. split; [|reflexivity]. simpl. rewrite app_nil_r. reflexivity.
Qed.

Lemma deliver_app (l1 l2 : list Incoming) (c : Client) :
  deliver (l1 ++ l2) c = deliver l2 (deliver l1 c).
Proof. revert c. induction l1 as [|p l1 IH]; intros c; simpl; [done|apply IH]. Qed.

Lemma delivered_cleanly_app (l1 l2 : list Incoming) (c : Client) :
  delivered_cleanly (l1 ++ l2) c
  = delivered_cleanly l1 c && delivered_cleanly l2 (deliver l1 c).
Proof.
  revert c. induction l1 as [|p l1 IH]; intros c; simpl; [done|].
  rewrite IH, andb_assoc. reflexivity.
Qed.

(** After chunks delivered without an exception, the tracked fields are
    those of the history. *)
Lemma deliver_chunks_track (l : list ImageChunk.t) (c : Client) :
  delivered_cleanly (InImageChunk <$> l) c = true →
  open_image_of (deliver (InImageChunk <$> l) c)
  = foldl (λ s p, (chunk_step s p).1) (open_image_of c) l.
Proof.
  revert c. induction l as [|p l IH]; intros c Hclean; [reflexivity|].
  rewrite fmap_cons in *. simpl in *.
  apply andb_true_iff in Hclean as [Hret Hclean].
  rewrite IH by done. f_equal. by apply on_image_chunk_step.
Qed.

(** The rule by which a chunk with a non-zero index joins the open image. *)
Lemma on_image_chunk_acceptance (s : Client) (q : ImageChunk.t) (i : Z) :
  _partial_image_id (partial s) = Some i →
  ImageChunk.chunk_id q ≠ 0 →
  ((ImageChunk.chunk_id q =? _last_chunk_id (partial s) + 1)
   && (ImageChunk.image_id q =? i) = false →
   _on_image_chunk q s
   = Ok tt (with_partial (λ _, set_partial_invalid true initial_partial) s))
  ∧ (returned (_on_image_chunk q s) = true →
     _partial_image_id (partial (final (_on_image_chunk q s))) = Some i →
     ImageChunk.chunk_id q = _last_chunk_id (partial s) + 1
     ∧ ImageChunk.image_id q = i
     ∧ _last_chunk_id (partial (final (_on_image_chunk q s))) = ImageChunk.chunk_id q
     ∧ _partial_size (partial (final (_on_image_chunk q s)))
       = _partial_size (partial s) + Z.of_nat (length (ImageChunk.data q))).
Proof.
  intros Hid H0. rewrite (on_image_chunk_next q s i) by done. split.
  - intros Hmis. by apply (store_chunk_mismatch q s i).
  - intros Hret Hstill.
    destruct ((ImageChunk.chunk_id q =? _last_chunk_id (partial s) + 1)
              && (ImageChunk.image_id q =? i)) eqn:Hmatch.
    + pose proof (store_chunk_match q s i Hid Hmatch Hret) as Hstore.
      cbv zeta in Hstore.
      apply andb_true_iff in Hmatch as [Hidx Himg].
      apply Z.eqb_eq in Hidx. apply Z.eqb_eq in Himg.
      destruct (is_last_chunk q).
      * destruct Hstore as [Hpartial _]. rewrite Hpartial in Hstill. discriminate.
      * destruct Hstore as (_ & Hlast' & Hsize' & _). done.
    + rewrite (store_chunk_mismatch q s i) in Hstill by done. discriminate.
Qed.

(** C2 (amended): let image chunks be delivered to a client with no image
    open, no handler call raising. The chunk delivered last dispatches
    [EvtNewRawCameraImage], exactly once, if and only if it ends a complete
    frame: the chunks delivered last, one after the other, carry the indices
    0 .. N-1 and one image id, the final one declares N chunks, and none
    before it declares itself the last. Otherwise it dispatches nothing.
    A chunk with a non-zero index that arrives while image [i] is open is
    stored only if its index is the last stored index plus one and its image
    id is [i]; any other chunk resets the partial state and marks it
    invalid, without an event. *)
Theorem image_completes_iff_complete_frame
    (c0 : Client) (pre : list ImageChunk.t) (p : ImageChunk.t) :
  _partial_image_id (partial c0) = None →
  delivered_cleanly (InImageChunk <$> pre ++ [p]) c0 = true →
  let c := deliver (InImageChunk <$> pre) c0 in
  let c' := final (_on_image_chunk p c) in
  ((∃ r, r `suffix_of` pre ++ [p] ∧ complete_frame r) ↔
   (∃ image, dispatched (effects c')
             = dispatched (effects c) ++ [(EvtNewRawCameraImage, [ArgImage image])]))
  ∧ ((¬ ∃ r, r `suffix_of` pre ++ [p] ∧ complete_frame r) →
     dispatched (effects c') = dispatched (effects c))
  ∧ (∀ (s : Client) (q : ImageChunk.t) (i : Z),
       _partial_image_id (partial s) = Some i →
       ImageChunk.chunk_id q ≠ 0 →
       ((ImageChunk.chunk_id q =? _last_chunk_id (partial s) + 1)
        && (ImageChunk.image_id q =? i) = false →
        _on_image_chunk q s
        = Ok tt (with_partial (λ _, set_partial_invalid true initial_partial) s))
       ∧ (returned (_on_image_chunk q s) = true →
          _partial_image_id (partial (final (_on_image_chunk q s))) = Some i →
          ImageChunk.chunk_id q = _last_chunk_id (partial s) + 1
          ∧ ImageChunk.image_id q = i
          ∧ _last_chunk_id (partial (final (_on_image_chunk q s))) = ImageChunk.chunk_id q
          ∧ _partial_size (partial (final (_on_image_chunk q s)))
            = _partial_size (partial s) + Z.of_nat (length (ImageChunk.data q)))).
Proof.
  intros Hclosed Hclean c c'.
  rewrite fmap_app, delivered_cleanly_app in Hclean.
  apply andb_true_iff in Hclean as [Hpre Hp]. simpl in Hp.
  rewrite andb_true_r in Hp. fold c in Hp.
  assert (Htrack : open_image_of c = chunk_track pre).
  { unfold c. rewrite deliver_chunks_track by done.
    unfold chunk_track, open_image_of. rewrite Hclosed. reflexivity. }
  destruct (on_image_chunk_step p c Hp) as (_ & images & Hdisp & Hlen).
  fold c' in Hdisp. rewrite Htrack in Hlen.
  pose proof (chunk_step_complete_frame pre p) as Hframe.
  destruct ((chunk_step (chunk_track pre) p).2).
  - destruct images as [|image [|]]; try discriminate. simpl in Hdisp.
    split; [|split].
    + split; [intros _; by exists image|intros _; by apply Hframe].
    + intros Hno. exfalso. apply Hno. by apply Hframe.
    + apply on_image_chunk_acceptance.
  - destruct images; [|discriminate]. simpl in Hdisp. rewrite app_nil_r in Hdisp.
    split; [|split].
    + split.
      * intros Hex. apply Hframe in Hex. discriminate.
      * intros [image Himage]. rewrite Hdisp in Himage.
        rewrite <- (app_nil_r (dispatched (effects c))) in Himage at 1.
        apply app_inv_head in Himage. discriminate.
    + intros _. exact Hdisp.
    + apply on_image_chunk_acceptance.
Qed.

(** C10: while an image is open, a chunk with index 0, whatever its image
    id, is handled as on a client with no partial state at all: nothing of
    the open image takes part in the outcome. The partial state is set anew
    from the chunk (timestamp, image id, encoding, resolution, an empty
    buffer of width x height x 3 bytes, size 0, last index -1, not invalid)
    and the chunk is then stored as the first of the new image. Unless the
    chunk declares itself the last, nothing is dispatched. *)
Theorem chunk_zero_restarts (pkt : ImageChunk.t) (c : Client) (i : Z) :
  _partial_image_id (partial c) = Some i →
  ImageChunk.chunk_id pkt = 0 →
  _on_image_chunk pkt c = _on_image_chunk pkt (with_partial (λ _, initial_partial) c)
  ∧ (∀ width height,
       ImageChunk.image_encoding pkt ∈ ImageEncoding_values →
       ImageChunk.image_resolution pkt ∈ ImageResolution_values →
       RESOLUTIONS !! ImageChunk.image_resolution pkt = Some (width, height) →
       _on_image_chunk pkt c
       = store_chunk pkt (with_partial (λ _, opened_partial pkt width height) c))
  ∧ (returned (_on_image_chunk pkt c) = true →
     is_last_chunk pkt = false →
     dispatched (effects (final (_on_image_chunk pkt c))) = dispatched (effects c)
     ∧ _partial_image_id (partial (final (_on_image_chunk pkt c)))
       = Some (ImageChunk.image_id pkt)
     ∧ _last_chunk_id (partial (final (_on_image_chunk pkt c))) = 0
     ∧ _partial_size (partial (final (_on_image_chunk pkt c)))
       = Z.of_nat (length (ImageChunk.data pkt))).
Proof.
  intros Hid H0. split; [|split].
  - rewrite !on_image_chunk_first by done. cbv [mbind M_bind].
    rewrite open_image_reset. reflexivity.
  - intros width height Henc Hres Hsize. rewrite on_image_chunk_first by done.
    cbv [mbind M_bind]. rewrite (open_image_ok pkt c width height) by done.
    reflexivity.
  - rewrite on_image_chunk_first by done. cbv [mbind M_bind].
    destruct (open_image pkt c) as [[] c1|e c1] eqn:Hopen; [|discriminate].
    destruct (open_image_returned pkt c) as (w & h & Hopened); [by rewrite Hopen|].
    rewrite Hopen in Hopened. injection Hopened as ->.
    set (c1 := with_partial _ c). intros Hret Hlast.
    assert (Hid1 : _partial_image_id (partial c1) = Some (ImageChunk.image_id pkt))
      by reflexivity.
    assert (Hmatch : (ImageChunk.chunk_id pkt =? _last_chunk_id (partial c1) + 1)
                     && (ImageChunk.image_id pkt =? ImageChunk.image_id pkt) = true).
    { rewrite H0, !Z.eqb_refl. reflexivity. }
    pose proof (store_chunk_match pkt c1 _ Hid1 Hmatch Hret) as Hstore.
    cbv zeta in Hstore. rewrite Hlast in Hstore.
    destruct Hstore as (Hid' & Hlast' & Hsize' & Hdisp).
    rewrite Hdisp, Hid', Hlast', Hsize', H0. done.
Qed.

End Image.

(** *** Image reassembly on concrete chunks *)

Section Image_examples.
#[local] Existing Instance example_env.

(** Three chunks of image 7 in order: one image, made of the three payloads. *)
Example three_chunks_one_image :
  dispatched (effects (deliver
    (InImageChunk <$> [example_chunk 7 0 3 [1; 2]; example_chunk 7 1 3 [3];
                       example_chunk 7 2 3 [4]])
    Client__init__))
  = [(EvtNewRawCameraImage, [ArgImage [1; 2; 3; 4]])].
Proof. vm_compute. reflexivity. Qed.

(** A gap in image 7 gives no image; image 8, of one chunk, then gives one. *)
Example gap_then_next_image :
  dispatched (effects (deliver
    (InImageChunk <$> [example_chunk 7 0 3 [1; 2]; example_chunk 7 2 3 [4]])
    Client__init__))
  = []
  ∧ dispatched (effects (deliver
      (InImageChunk <$> [example_chunk 7 0 3 [1; 2]; example_chunk 7 2 3 [4];
                         example_chunk 8 0 1 [5; 6]])
      Client__init__))
    = [(EvtNewRawCameraImage, [ArgImage [5; 6]])].
Proof. split; vm_compute; reflexivity. Qed.

(** C2, as stated, fails, whichever chunk's declared count is taken for N.
    (1) Chunk 0 of image 7 declares 3 chunks and chunk 1 declares 2: an image
        is dispatched at chunk 1, and no segment of the stream is a run
        0..N-1 with N the count its first chunk declares.
    (2) Chunk 0 declares 1 chunk and chunk 1 declares 2: the two chunks are a
        run 0..1 of image 7 whose final chunk declares 2, and that final
        chunk dispatches nothing.
    (3) A run of the single chunk 0, declaring 1 chunk, with an empty
        payload: finalisation raises on the missing first byte and nothing
        is dispatched.
    In (1) and (2) no handler raises. *)
Lemma completion_reads_each_chunks_count :
  (delivered_cleanly
     (InImageChunk <$> [example_chunk 7 0 3 [1]; example_chunk 7 1 2 [2]])
     Client__init__ = true
   ∧ dispatched (effects (deliver
       (InImageChunk <$> [example_chunk 7 0 3 [1]; example_chunk 7 1 2 [2]])
       Client__init__))
     = [(EvtNewRawCameraImage, [ArgImage [1; 2]])]
   ∧ existsb stated_run_by_first
       (segments [example_chunk 7 0 3 [1]; example_chunk 7 1 2 [2]]) = false)
  ∧ (delivered_cleanly
       (InImageChunk <$> [example_chunk 7 0 1 [1]; example_chunk 7 1 2 [2]])
       Client__init__ = true
     ∧ stated_run_by_last [example_chunk 7 0 1 [1]; example_chunk 7 1 2 [2]] = true
     ∧ dispatched (effects (deliver
         (InImageChunk <$> [example_chunk 7 0 1 [1]; example_chunk 7 1 2 [2]])
         Client__init__))
       = dispatched (effects (deliver
           (InImageChunk <$> [example_chunk 7 0 1 [1]]) Client__init__)))
  ∧ (stated_run_by_first [example_chunk 7 0 1 []] = true
     ∧ stated_run_by_last [example_chunk 7 0 1 []] = true
     ∧ _on_image_chunk (example_chunk 7 0 1 []) Client__init__
       = Raise IndexError
           (final (_on_image_chunk (example_chunk 7 0 1 []) Client__init__))
     ∧ dispatched (effects (deliver
         (InImageChunk <$> [example_chunk 7 0 1 []]) Client__init__))
       = []).
Proof.
  split; [|split].
  - split; [|split]; vm_compute; reflexivity.
  - split; [|split]; vm_compute; reflexivity.
  - split; [|split; [|split]]; vm_compute; reflexivity.
Qed.

(** The theorem for C2 at three chunks of image 7 delivered in order. *)
Lemma image_completes_iff_complete_frame_example :
  _partial_image_id (partial Client__init__) = None
  ∧ delivered_cleanly
      (InImageChunk <$> [example_chunk 7 0 3 [1; 2]; example_chunk 7 1 3 [3]]
                        ++ [example_chunk 7 2 3 [4]])
      Client__init__ = true
  ∧ ∃ image,
      dispatched (effects (final (_on_image_chunk (example_chunk 7 2 3 [4])
        (deliver (InImageChunk <$> [example_chunk 7 0 3 [1; 2]; example_chunk 7 1 3 [3]])
           Client__init__))))
      = dispatched (effects
          (deliver (InImageChunk <$> [example_chunk 7 0 3 [1; 2]; example_chunk 7 1 3 [3]])
             Client__init__))
        ++ [(EvtNewRawCameraImage, [ArgImage image])].
Proof.
  assert (Hclean : delivered_cleanly
      (InImageChunk <$> [example_chunk 7 0 3 [1; 2]; example_chunk 7 1 3 [3]]
                        ++ [example_chunk 7 2 3 [4]])
      Client__init__ = true) by (vm_compute; reflexivity).
  split; [reflexivity|]. split; [exact Hclean|].
  apply (proj1 (image_completes_iff_complete_frame Client__init__
                  [example_chunk 7 0 3 [1; 2]; example_chunk 7 1 3 [3]]
                  (example_chunk 7 2 3 [4]) eq_refl Hclean)).
  exists ([example_chunk 7 0 3 [1; 2]; example_chunk 7 1 3 [3]]
          ++ [example_chunk 7 2 3 [4]]).
  split; [reflexivity|].
  exists [example_chunk 7 0 3 [1; 2]; example_chunk 7 1 3 [3]], (example_chunk 7 2 3 [4]).
  split; [reflexivity|]. split; [|split]; reflexivity.
Defined.

(** Chunk 0 of image 8 arrives while image 7 is open: image 7 is dropped
    without an event and the chunk starts image 8. *)
Example chunk_zero_of_another_image :
  dispatched (effects (deliver
    (InImageChunk <$> [example_chunk 7 0 3 [1; 2]; example_chunk 8 0 3 [9]])
    Client__init__))
  = []
  ∧ open_image_of (deliver
      (InImageChunk <$> [example_chunk 7 0 3 [1; 2]; example_chunk 8 0 3 [9]])
      Client__init__)
    = Some (8, 0).
Proof. split; vm_compute; reflexivity. Qed.

(** The theorem for C10 at that client and chunk. *)
Lemma chunk_zero_restarts_example :
  _partial_image_id
    (partial (final (_on_image_chunk (example_chunk 7 0 3 [1; 2]) Client__init__)))
  = Some 7
  ∧ ImageChunk.chunk_id (example_chunk 8 0 3 [9]) = 0
  ∧ _on_image_chunk (example_chunk 8 0 3 [9])
      (final (_on_image_chunk (example_chunk 7 0 3 [1; 2]) Client__init__))
    = _on_image_chunk (example_chunk 8 0 3 [9])
        (with_partial (λ _, initial_partial)
           (final (_on_image_chunk (example_chunk 7 0 3 [1; 2]) Client__init__))).
Proof.
  assert (Hid : _partial_image_id
    (partial (final (_on_image_chunk (example_chunk 7 0 3 [1; 2]) Client__init__)))
    = Some 7) by (vm_compute; reflexivity).
  split; [exact Hid|]. split; [reflexivity|].
  exact (proj1 (chunk_zero_restarts (example_chunk 8 0 3 [9])
                  (final (_on_image_chunk (example_chunk 7 0 3 [1; 2]) Client__init__))
                  7 Hid eq_refl)).
Defined.

End Image_examples.

(** * Further properties of the handlers *)

(** ** What a handler leaves alone *)

Section Frames.
Context {ext : Externals}.

Lemma keeps_ret {A B : Type} (f : Client → A) (b : B) : keeps f (mret b).
Proof. intros c. reflexivity. Qed.

Lemma keeps_raise {A B : Type} (f : Client → A) (e : Exn) : keeps f (raise (A := B) e).
Proof. intros c. reflexivity. Qed.

Lemma keeps_gets {A B : Type} (f : Client → A) (g : Client → B) : keeps f (gets g).
Proof. intros c. reflexivity. Qed.

Lemma keeps_modify {A : Type} (f : Client → A) (g : Client → Client) :
  (∀ c, f (g c) = f c) → keeps f (modify g).
Proof. intros Hg c. apply Hg. Qed.

Lemma keeps_bind {A B C : Type} (f : Client → A) (m : M B) (k : B → M C) :
  keeps f m → (∀ b, keeps f (k b)) → keeps f (m ≫= k).
Proof.
  intros Hm Hk c. cbv [mbind M_bind]. specialize (Hm c).
  destruct (m c) as [b c1|e c1]; simpl in *; [|exact Hm].
  rewrite Hk. exact Hm.
Qed.

Lemma keeps_for_each {A B : Type} (f : Client → A) (l : list B) (body : B → M unit) :
  (∀ x, keeps f (body x)) → keeps f (for_each l body).
Proof.
  intros Hbody. induction l as [|x l IH]; simpl; [apply keeps_ret|].
  apply keeps_bind; [apply Hbody|intros _; exact IH].
Qed.

(** Break a method body into its statements. *)
Ltac keeps_steps :=
  repeat first
    [ apply keeps_ret
    | apply keeps_raise
    | apply keeps_gets
    | apply keeps_modify; intros ?; reflexivity
    | apply keeps_bind; [|intros ?]
    | apply keeps_for_each; intros ?
    | case_match ].

(** Handlers that touch neither the logs of sent commands nor the objects. *)
Ltac keeps_handler :=
  unfold _on_hardware_info, _on_image_chunk, _on_robot_state, _on_animation_state,
    _on_object_available, _on_object_connection_state, close_open_image, open_image,
    store_chunk, _process_completed_image, _reset_partial_state, ImageEncoding,
    ImageResolution, ObjectType, RESOLUTIONS_getitem, external, dispatch_flag_change,
    dispatch;
  keeps_steps.

Lemma quiet_handlers_keep_sent (pkt : Incoming) :
  match pkt with
  | InFirmwareSignature _ | InBodyInfo _ => True
  | _ => keeps (λ c, conn_sent (effects c)) (handle pkt)
  end.
Proof. destruct pkt; simpl; try exact I; keeps_handler. Qed.

(** X1: the commands a packet makes the client send. A firmware-signature
    packet sends [Enable] twice when its signature loads and has a version
    entry, and nothing otherwise; a body-info packet sends the initialization
    commands when the client holds a signature with the supported version,
    and nothing otherwise; no other packet sends anything. This holds whether
    the handler returns or raises. *)
Theorem handle_send_log (pkt : Incoming) (c : Client) :
  conn_sent (effects (final (handle pkt c))) = conn_sent (effects c) ++ commands_for pkt c.
Proof.
  pose proof (quiet_handlers_keep_sent pkt) as Hquiet.
  destruct pkt as [p|p|p|p|p|p|p|p]; cbn [handle commands_for] in *;
    try (rewrite app_nil_r; exact (Hquiet c)).
  - unfold signature_parses.
    destruct (json_loads (FirmwareSignature.signature p)) as [j|] eqn:Hj.
    + destruct (json_getitem j "version") as [e|v] eqn:Hv.
      * unfold _on_firmware_signature, robot_fw_sig_version. rewrite Hj.
        cbv [mbind mret M_bind M_ret modify gets raise]. simpl. rewrite Hv. simpl.
        rewrite ?app_nil_r. reflexivity.
      * rewrite (on_firmware_signature_parsed p c j v Hj Hv). simpl.
        rewrite ?app_nil_r. reflexivity.
    + unfold _on_firmware_signature. rewrite Hj. simpl. rewrite ?app_nil_r. reflexivity.
  - unfold holds_supported_version.
    destruct (robot_fw_sig (ident c)) as [j|] eqn:Hsig.
    + destruct (json_getitem j "version") as [e|v] eqn:Hv.
      * unfold _on_body_info, robot_fw_sig_version.
        cbv [mbind mret M_bind M_ret modify gets raise]. simpl. rewrite Hsig, Hv. simpl.
        rewrite ?app_nil_r. reflexivity.
      * rewrite (on_body_info_versioned p c j v Hsig Hv). reflexivity.
    + unfold _on_body_info, robot_fw_sig_version.
      cbv [mbind mret M_bind M_ret modify gets raise]. simpl. rewrite Hsig. simpl.
      rewrite ?app_nil_r. reflexivity.
Qed.

Lemma keeps_for_range {A : Type} (f : Client → A) (n : nat) (body : M unit) :
  keeps f body → keeps f (for_range n body).
Proof.
  intros Hbody. induction n as [|n IH]; simpl; [apply keeps_ret|].
  apply keeps_bind; [exact Hbody|intros _; exact IH].
Qed.

(** Every handler, for observations that no log entry changes. *)
Ltac keeps_any_handler :=
  unfold _on_firmware_signature, _on_body_info, robot_fw_sig_version, _enable_robot,
    _initialize_robot, conn_send;
  repeat first [ apply keeps_for_range | progress keeps_handler ].

Lemma other_handlers_keep_available_objects (pkt : Incoming) :
  match pkt with
  | InObjectAvailable _ => True
  | _ => keeps available_objects (handle pkt)
  end.
Proof. destruct pkt; simpl; try exact I; keeps_any_handler. Qed.

Lemma other_handlers_keep_connected_objects (pkt : Incoming) :
  match pkt with
  | InObjectConnectionState _ => True
  | _ => keeps connected_objects (handle pkt)
  end.
Proof. destruct pkt; simpl; try exact I; keeps_any_handler. Qed.

(** X2: an object that is in [available_objects] stays there with the record
    it has, whatever packets arrive afterwards: no handler removes or
    replaces an entry of that map, and only object-available packets change
    it at all; likewise only object-connection-state packets change
    [connected_objects]. *)
Theorem available_object_never_forgotten
    (pkts : list Incoming) (c : Client) (fid : Z) (obj : Object) :
  available_objects c !! fid = Some obj →
  available_objects (deliver pkts c) !! fid = Some obj
  ∧ (∀ pkt, (∀ p, pkt ≠ InObjectAvailable p) →
       available_objects (final (handle pkt c)) = available_objects c)
  ∧ (∀ pkt, (∀ p, pkt ≠ InObjectConnectionState p) →
       connected_objects (final (handle pkt c)) = connected_objects c).
Proof.
  intros Hobj. split; [|split].
  - revert c Hobj. induction pkts as [|pkt pkts IH]; intros c Hobj; [done|].
    simpl. apply IH.
    pose proof (other_handlers_keep_available_objects pkt) as Hkeep.
    destruct pkt; cbn [handle] in *;
      try (unfold keeps in Hkeep; rewrite Hkeep; exact Hobj).
    by apply on_object_available_keeps.
  - intros pkt Hne. pose proof (other_handlers_keep_available_objects pkt) as Hkeep.
    destruct pkt; try apply (Hkeep c). by destruct (Hne pkt).
  - intros pkt Hne. pose proof (other_handlers_keep_connected_objects pkt) as Hkeep.
    destruct pkt; try apply (Hkeep c). by destruct (Hne pkt).
Qed.

End Frames.

(** ** The handshake and [wait_for_robot] together *)

Section Handshake_then_wait.
Context {ext : Externals}.

Lemma json_getitem_truthy (j v : Json) (key : string) :
  json_getitem j key = inr v → json_truthy j = true.
Proof.
  destruct j as [| | | | |items|items]; simpl; try discriminate.
  destruct items; [discriminate|reflexivity].
Qed.

(** The client after a firmware signature that parses and a body info. *)
Lemma deliver_signature_and_body
    (c0 : Client) (sig : FirmwareSignature.t) (body : BodyInfo.t) (j v : Json) :
  json_loads (FirmwareSignature.signature sig) = Some j →
  json_getitem j "version" = inr v →
  deliver [InFirmwareSignature sig; InBodyInfo body] c0
  = logged
      (if json_eq_int v FIRMWARE_VERSION then initialization_commands else [])
      ((if json_eq_int v FIRMWARE_VERSION then [(EvtRobotReady, [])] else [])
         ++ [(EvtRobotFound, [])])
      (body_info_stored body
         (logged [Enable; Enable] [] (with_ident (set_robot_fw_sig (Some j)) c0))).
Proof.
  intros Hj Hv. cbn [deliver handle].
  rewrite (on_firmware_signature_parsed sig c0 j v Hj Hv). cbn [final].
  rewrite (on_body_info_versioned body _ j v) by done. reflexivity.
Qed.

(** X3: after a firmware signature with the supported version and a body
    info with a non-zero serial number, [wait_for_robot] returns at once: it
    subscribes to nothing, waits for nothing and leaves the client as it
    is, whatever the waits would answer. *)
Theorem wait_after_supported_handshake
    (c0 : Client) (sig : FirmwareSignature.t) (body : BodyInfo.t) (j v : Json)
    (found ready : Wait) :
  json_loads (FirmwareSignature.signature sig) = Some j →
  json_getitem j "version" = inr v →
  json_eq_int v FIRMWARE_VERSION = true →
  BodyInfo.serial_number body ≠ 0 →
  wait_for_robot found ready (deliver [InFirmwareSignature sig; InBodyInfo body] c0)
  = Ok tt (deliver [InFirmwareSignature sig; InBodyInfo body] c0).
Proof.
  intros Hj Hv Heq Hsn. rewrite (deliver_signature_and_body c0 sig body j v Hj Hv).
  set (c := logged _ _ _).
  assert (Hsig : robot_fw_sig (ident c) = Some j) by reflexivity.
  assert (Hserial : serial_number (ident c) = Some (BodyInfo.serial_number body))
    by reflexivity.
  unfold wait_for_robot. cbv [mbind M_bind].
  rewrite await_found_eq, Hsig. simpl.
  rewrite (json_getitem_truthy j v "version" Hv). simpl.
  rewrite (check_version_eq c j v Hsig Hv), Heq.
  rewrite await_ready_eq, Hserial. simpl.
  apply Z.eqb_neq in Hsn. rewrite Hsn. reflexivity.
Qed.

(** X4: a body serial number of 0 counts as no serial number. After the
    same handshake with serial number 0, [EvtRobotReady] has been dispatched,
    yet [wait_for_robot] subscribes a one-shot handler to [EvtRobotReady]
    and waits; if no further [EvtRobotReady] sets the event in time it raises
    [ConnectionTimeout]. *)
Theorem wait_after_handshake_with_serial_zero
    (c0 : Client) (sig : FirmwareSignature.t) (body : BodyInfo.t) (j v : Json)
    (found ready : Wait) :
  json_loads (FirmwareSignature.signature sig) = Some j →
  json_getitem j "version" = inr v →
  json_eq_int v FIRMWARE_VERSION = true →
  BodyInfo.serial_number body = 0 →
  (EvtRobotReady, []) ∈ dispatched
    (effects (deliver [InFirmwareSignature sig; InBodyInfo body] c0))
  ∧ wait_for_robot found ready (deliver [InFirmwareSignature sig; InBodyInfo body] c0)
    = if (ready (subscribed EvtRobotReady
                   (deliver [InFirmwareSignature sig; InBodyInfo body] c0))).1
      then Ok tt (ready (subscribed EvtRobotReady
                           (deliver [InFirmwareSignature sig; InBodyInfo body] c0))).2
      else Raise ConnectionTimeout
             (ready (subscribed EvtRobotReady
                       (deliver [InFirmwareSignature sig; InBodyInfo body] c0))).2.
Proof.
  intros Hj Hv Heq Hsn.
  rewrite (deliver_signature_and_body c0 sig body j v Hj Hv). rewrite Heq.
  set (c := logged _ _ _).
  assert (Hsig : robot_fw_sig (ident c) = Some j) by reflexivity.
  assert (Hserial : serial_number (ident c) = Some (BodyInfo.serial_number body))
    by reflexivity.
  split.
  - unfold c. simpl. set_solver.
  - unfold wait_for_robot. cbv [mbind M_bind].
    rewrite await_found_eq, Hsig. simpl.
    rewrite (json_getitem_truthy j v "version" Hv). simpl.
    rewrite (check_version_eq c j v Hsig Hv), Heq.
    rewrite await_ready_eq, Hserial, Hsn. reflexivity.
Qed.

(** X5: after a firmware signature with another version than the supported
    one and a body info, [wait_for_robot] raises
    [UnsupportedFirmwareVersion] at once, whatever the serial number and
    whatever the waits would answer; the client is left as it is. *)
Theorem wait_after_unsupported_handshake
    (c0 : Client) (sig : FirmwareSignature.t) (body : BodyInfo.t) (j v : Json)
    (found ready : Wait) :
  json_loads (FirmwareSignature.signature sig) = Some j →
  json_getitem j "version" = inr v →
  json_eq_int v FIRMWARE_VERSION = false →
  wait_for_robot found ready (deliver [InFirmwareSignature sig; InBodyInfo body] c0)
  = Raise UnsupportedFirmwareVersion
      (deliver [InFirmwareSignature sig; InBodyInfo body] c0).
Proof.
  intros Hj Hv Hne. rewrite (deliver_signature_and_body c0 sig body j v Hj Hv).
  set (c := logged _ _ _).
  assert (Hsig : robot_fw_sig (ident c) = Some j) by reflexivity.
  unfold wait_for_robot. cbv [mbind M_bind].
  rewrite await_found_eq, Hsig. simpl.
  rewrite (json_getitem_truthy j v "version" Hv). simpl.
  rewrite (check_version_eq c j v Hsig Hv), Hne. reflexivity.
Qed.

(** X6: a signature that loads but has no version entry is stored all the
    same: the handler raises the error of the lookup ([KeyError] for a dict
    without the key, [TypeError] for a document that is not a dict) after
    the assignment, and sends nothing. *)
Theorem signature_without_version_is_stored
    (pkt : FirmwareSignature.t) (c : Client) (j : Json) (e : Exn) :
  json_loads (FirmwareSignature.signature pkt) = Some j →
  json_getitem j "version" = inl e →
  _on_firmware_signature pkt c = Raise e (with_ident (set_robot_fw_sig (Some j)) c)
  ∧ (e = KeyError ∨ e = TypeError).
Proof.
  intros Hj Hv. split; [|by apply (json_getitem_error j "version")].
  unfold _on_firmware_signature, robot_fw_sig_version. rewrite Hj.
  cbv [mbind mret M_bind M_ret modify gets raise]. simpl. rewrite Hv. reflexivity.
Qed.

(** X7: when the client holds a signature that is true as a Python value
    but has no version entry, [wait_for_robot] raises the error of the
    lookup, neither [ConnectionTimeout] nor [UnsupportedFirmwareVersion],
    without subscribing or waiting. *)
Theorem wait_for_robot_without_version
    (c : Client) (j : Json) (e : Exn) (found ready : Wait) :
  robot_fw_sig (ident c) = Some j →
  json_truthy j = true →
  json_getitem j "version" = inl e →
  wait_for_robot found ready c = Raise e c
  ∧ e ≠ ConnectionTimeout ∧ e ≠ UnsupportedFirmwareVersion.
Proof.
  intros Hsig Htruthy Hv. split.
  - unfold wait_for_robot, check_version, robot_fw_sig_version.
    cbv [mbind M_bind]. rewrite await_found_eq, Hsig. simpl. rewrite Htruthy. simpl.
    cbv [gets raise mret M_ret]. rewrite Hsig, Hv. reflexivity.
  - destruct (json_getitem_error j "version" e Hv) as [-> | ->]; done.
Qed.

End Handshake_then_wait.

(** ** Robot state and connected objects *)

Section Telemetry_and_objects.
Context {ext : Externals}.

Lemma for_each_no_flag_differs (table : list (Z * EvtClass)) (old_status new_status : Z)
    (c : Client) :
  (∀ flag evt, (flag, evt) ∈ table → Z.land old_status flag = Z.land new_status flag) →
  for_each table (dispatch_flag_change old_status new_status) c = Ok tt c.
Proof.
  revert c. induction table as [|[flag evt] table IH]; intros c Hsame; [reflexivity|].
  simpl. unfold dispatch_flag_change at 1, flag_differs.
  rewrite (Hsame flag evt) by left. rewrite Z.eqb_refl. simpl.
  cbv [mbind mret M_bind M_ret]. apply IH.
  intros f e Hin. apply (Hsame f e). by right.
Qed.

(** X8: a robot-state packet whose status agrees with the stored one on
    every flag of the table (in particular the same status again) dispatches
    [EvtRobotStateUpdated] and nothing else; the names of the flags are not
    looked up, so the handler cannot raise. *)
Theorem robot_state_unchanged_flags (pkt : RobotState.t) (c : Client) :
  (∀ flag evt, (flag, evt) ∈ STATUS_EVTS →
     Z.land (robot_status (telemetry c)) flag = Z.land (RobotState.status pkt) flag) →
  ∃ c', _on_robot_state pkt c = Ok tt c'
    ∧ robot_status (telemetry c') = RobotState.status pkt
    ∧ dispatched (effects c') = dispatched (effects c) ++ [(EvtRobotStateUpdated, [])].
Proof.
  intros Hsame. unfold _on_robot_state. cbv [mbind mret M_bind M_ret modify gets].
  rewrite dispatch_logged.
  match goal with
  | |- context [for_each _ (dispatch_flag_change ?o ?n) ?c1] =>
      rewrite (for_each_no_flag_differs _ o n c1 Hsame)
  end.
  eexists. split; [reflexivity|]. done.
Qed.

(** X9: an object-connection-state packet never raises. A connect stores
    the packet's factory id and object type under its object id, replacing
    any record there, and leaves the other ids alone; a disconnect removes
    the id, and is a no-op when the id is not connected; a connect followed
    by a disconnect of an id that was not connected gives back the map. *)
Theorem object_connection_round_trip (pkt : ObjectConnectionState.t) (c : Client) :
  returned (_on_object_connection_state pkt c) = true
  ∧ (ObjectConnectionState.connected pkt = true →
     connected_objects (final (_on_object_connection_state pkt c))
     = <[ObjectConnectionState.object_id pkt :=
           mkConnectedObject (ObjectConnectionState.factory_id pkt)
             (ObjectConnectionState.object_type pkt)]> (connected_objects c))
  ∧ (ObjectConnectionState.connected pkt = false →
     connected_objects (final (_on_object_connection_state pkt c))
     = delete (ObjectConnectionState.object_id pkt) (connected_objects c))
  ∧ (ObjectConnectionState.connected pkt = false →
     connected_objects c !! ObjectConnectionState.object_id pkt = None →
     connected_objects (final (_on_object_connection_state pkt c)) = connected_objects c)
  ∧ (∀ off : ObjectConnectionState.t,
       ObjectConnectionState.connected pkt = true →
       ObjectConnectionState.connected off = false →
       ObjectConnectionState.object_id off = ObjectConnectionState.object_id pkt →
       connected_objects c !! ObjectConnectionState.object_id pkt = None →
       connected_objects
         (deliver [InObjectConnectionState pkt; InObjectConnectionState off] c)
       = connected_objects c).
Proof.
  assert (Hoff : ∀ (q : ObjectConnectionState.t) (s : Client),
            ObjectConnectionState.connected q = false →
            connected_objects (final (_on_object_connection_state q s))
            = delete (ObjectConnectionState.object_id q) (connected_objects s)).
  { intros q s Hq. unfold _on_object_connection_state. rewrite Hq.
    cbv [mbind mret M_bind M_ret gets modify].
    case_bool_decide as Hin; simpl; [reflexivity|].
    symmetry. apply delete_id.
    destruct (connected_objects s !! ObjectConnectionState.object_id q); done. }
  assert (Hon : ObjectConnectionState.connected pkt = true →
            connected_objects (final (_on_object_connection_state pkt c))
            = <[ObjectConnectionState.object_id pkt :=
                  mkConnectedObject (ObjectConnectionState.factory_id pkt)
                    (ObjectConnectionState.object_type pkt)]> (connected_objects c)).
  { intros Hp. unfold _on_object_connection_state. rewrite Hp. reflexivity. }
  split; [|split; [|split; [|split]]].
  - unfold _on_object_connection_state.
    destruct (ObjectConnectionState.connected pkt); [reflexivity|].
    cbv [mbind mret M_bind M_ret gets modify]. case_bool_decide; reflexivity.
  - exact Hon.
  - apply Hoff.
  - intros Hp Hnone. rewrite Hoff by done. by apply delete_id.
  - intros off Hp Hq Hid Hnone. cbn [deliver handle].
    rewrite Hoff by done. rewrite Hon by done. rewrite Hid.
    rewrite delete_insert_eq. by apply delete_id.
Qed.

End Telemetry_and_objects.

(** ** Image reassembly from any state *)

Section Image_frames.
Context {ext : Externals}.

Lemma store_chunk_stored (pkt : ImageChunk.t) (c : Client) (i : Z) :
  _partial_image_id (partial c) = Some i →
  (ImageChunk.chunk_id pkt =? _last_chunk_id (partial c) + 1)
  && (ImageChunk.image_id pkt =? i) = true →
  is_last_chunk pkt = false →
  returned (store_chunk pkt c) = true →
  ∃ buf, store_chunk pkt c = Ok tt (chunk_stored pkt buf c).
Proof.
  intros Hid Hmatch Hlast. unfold store_chunk.
  cbv [mbind mret M_bind M_ret gets modify raise].
  rewrite (chunk_mismatch_test pkt c i Hid), Hmatch. simpl.
  destruct (_partial_data (partial c)) as [buf|]; [|discriminate].
  destruct (ndarray_setslice _ _ _ _) as [buf'|]; [|discriminate].
  unfold is_last_chunk in Hlast. rewrite Hlast. intros _. exists buf'. reflexivity.
Qed.

Lemma store_chunk_completes (pkt : ImageChunk.t) (c : Client) (i : Z) :
  _partial_image_id (partial c) = Some i →
  (ImageChunk.chunk_id pkt =? _last_chunk_id (partial c) + 1)
  && (ImageChunk.image_id pkt =? i) = true →
  is_last_chunk pkt = true →
  returned (store_chunk pkt c) = true →
  ∃ buf image,
    store_chunk pkt c
    = Ok tt (with_partial (λ _, initial_partial)
               (logged [] [(EvtNewRawCameraImage, [ArgImage image])]
                  (with_camera
                     (λ _, mkCamera (_partial_image_timestamp (partial c)) (Some image))
                     (chunk_stored pkt buf c)))).
Proof.
  intros Hid Hmatch Hlast. unfold store_chunk.
  cbv [mbind mret M_bind M_ret gets modify raise].
  rewrite (chunk_mismatch_test pkt c i Hid), Hmatch. simpl.
  destruct (_partial_data (partial c)) as [buf|]; [|discriminate].
  destruct (ndarray_setslice _ _ _ _) as [buf'|]; [|discriminate].
  unfold is_last_chunk in Hlast. rewrite Hlast.
  fold (chunk_stored pkt buf' c).
  pose proof (process_completed_image_cases (chunk_stored pkt buf' c)) as Hdone.
  destruct (_process_completed_image (chunk_stored pkt buf' c)) as [[] c2|e c2];
    [|discriminate].
  intros _. destruct Hdone as [image ->]. exists buf', image. reflexivity.
Qed.

(** Chunks that continue the open image, none of them the last. *)
Lemma deliver_run_continues (r : list ImageChunk.t) (c : Client) (i k : Z) :
  1 ≤ k →
  _partial_image_id (partial c) = Some i →
  _last_chunk_id (partial c) = k - 1 →
  run_from i k r = true →
  forallb (λ p, negb (is_last_chunk p)) r = true →
  delivered_cleanly (InImageChunk <$> r) c = true →
  _partial_image_id (partial (deliver (InImageChunk <$> r) c)) = Some i
  ∧ _last_chunk_id (partial (deliver (InImageChunk <$> r) c))
    = k - 1 + Z.of_nat (length r)
  ∧ _partial_size (partial (deliver (InImageChunk <$> r) c))
    = _partial_size (partial c) + payload_length r
  ∧ _partial_image_timestamp (partial (deliver (InImageChunk <$> r) c))
    = _partial_image_timestamp (partial c)
  ∧ effects (deliver (InImageChunk <$> r) c) = effects c
  ∧ camera (deliver (InImageChunk <$> r) c) = camera c.
Proof.
  revert c k. induction r as [|p r IH]; intros c k Hk Hid Hlast Hrun Hopen Hclean.
  { simpl. unfold payload_length. simpl. repeat split; try done; lia. }
  cbn [run_from] in Hrun. apply andb_true_iff in Hrun as [Hrun Hrest].
  apply andb_true_iff in Hrun as [Hidx Himg].
  apply Z.eqb_eq in Hidx. apply Z.eqb_eq in Himg.
  cbn [forallb] in Hopen. apply andb_true_iff in Hopen as [Hp Hopen].
  apply negb_true_iff in Hp.
  rewrite fmap_cons in *. cbn [deliver delivered_cleanly handle] in *.
  apply andb_true_iff in Hclean as [Hret Hclean].
  assert (H0 : ImageChunk.chunk_id p ≠ 0) by lia.
  rewrite (on_image_chunk_next p c i H0 Hid) in *.
  assert (Hmatch : (ImageChunk.chunk_id p =? _last_chunk_id (partial c) + 1)
                   && (ImageChunk.image_id p =? i) = true).
  { apply andb_true_iff. split; apply Z.eqb_eq; lia. }
  destruct (store_chunk_stored p c i Hid Hmatch Hp Hret) as [buf Hstored].
  rewrite Hstored in *. cbn [final] in *.
  destruct (IH (chunk_stored p buf c) (k + 1)) as (Hid' & Hlast' & Hsize' & Hts' & He' & Hc');
    try done; try (simpl; lia).
  rewrite Hid', Hlast', Hsize', Hts', He', Hc'.
  unfold payload_length. cbn [foldr length]. fold (payload_length r).
  simpl. repeat split; try done; lia.
Qed.

(** An open run from its chunk 0 on, delivered to any client. *)
Lemma deliver_open_run (c0 : Client) (f : ImageChunk.t) (r : list ImageChunk.t) :
  run_from (ImageChunk.image_id f) 0 (f :: r) = true →
  forallb (λ p, negb (is_last_chunk p)) (f :: r) = true →
  delivered_cleanly (InImageChunk <$> f :: r) c0 = true →
  _partial_image_id (partial (deliver (InImageChunk <$> f :: r) c0))
  = Some (ImageChunk.image_id f)
  ∧ _last_chunk_id (partial (deliver (InImageChunk <$> f :: r) c0))
    = Z.of_nat (length (f :: r)) - 1
  ∧ _partial_size (partial (deliver (InImageChunk <$> f :: r) c0))
    = payload_length (f :: r)
  ∧ _partial_image_timestamp (partial (deliver (InImageChunk <$> f :: r) c0))
    = Some (ImageChunk.frame_timestamp f)
  ∧ effects (deliver (InImageChunk <$> f :: r) c0) = effects c0
  ∧ camera (deliver (InImageChunk <$> f :: r) c0) = camera c0.
Proof.
  intros Hrun Hopen Hclean.
  cbn [run_from] in Hrun. apply andb_true_iff in Hrun as [Hrun Hrest].
  apply andb_true_iff in Hrun as [Hidx _]. apply Z.eqb_eq in Hidx.
  cbn [forallb] in Hopen. apply andb_true_iff in Hopen as [Hf Hopen].
  apply negb_true_iff in Hf.
  rewrite fmap_cons in *. cbn [deliver delivered_cleanly handle] in *.
  apply andb_true_iff in Hclean as [Hret Hclean].
  rewrite (on_image_chunk_first f c0 Hidx) in *.
  cbv [mbind M_bind] in Hret, Hclean |- *.
  destruct (open_image f c0) as [[] c1|e c1] eqn:Hopened; [|discriminate].
  destruct (open_image_returned f c0) as (w & h & Heq); [by rewrite Hopened|].
  rewrite Hopened in Heq. injection Heq as ->.
  set (c1 := with_partial _ c0) in *.
  assert (Hid : _partial_image_id (partial c1) = Some (ImageChunk.image_id f))
    by reflexivity.
  assert (Hmatch : (ImageChunk.chunk_id f =? _last_chunk_id (partial c1) + 1)
                   && (ImageChunk.image_id f =? ImageChunk.image_id f) = true).
  { rewrite Hidx, !Z.eqb_refl. reflexivity. }
  destruct (store_chunk_stored f c1 _ Hid Hmatch Hf Hret) as [buf Hstored].
  rewrite Hstored in *. cbn [final] in *.
  destruct (deliver_run_continues r (chunk_stored f buf c1) (ImageChunk.image_id f) 1)
    as (Hid' & Hlast' & Hsize' & Hts' & He' & Hc'); try done; try (simpl; lia).
  rewrite Hid', Hlast', Hsize', Hts', He', Hc'.
  unfold payload_length. cbn [foldr length]. fold (payload_length r).
  simpl. repeat split; try done; lia.
Qed.

(** X10: while no image is open, chunks with a non-zero index are dropped:
    however many arrive, they dispatch nothing and change nothing but the
    invalid mark, so the stream is taken up again only by a chunk 0. *)
Theorem nonzero_chunks_while_closed_are_dropped
    (p : ImageChunk.t) (l : list ImageChunk.t) (c : Client) :
  _partial_image_id (partial c) = None →
  Forall (λ q, ImageChunk.chunk_id q ≠ 0) (p :: l) →
  deliver (InImageChunk <$> p :: l) c = with_partial (set_partial_invalid true) c
  ∧ delivered_cleanly (InImageChunk <$> p :: l) c = true.
Proof.
  revert p c. induction l as [|q l IH]; intros p c Hid Hall.
  - apply Forall_cons in Hall as [Hp _]. cbn [fmap list_fmap deliver delivered_cleanly handle].
    rewrite (on_image_chunk_closed p c Hp Hid). done.
  - apply Forall_cons in Hall as [Hp Hall].
    change (InImageChunk <$> p :: q :: l)
      with (InImageChunk p :: (InImageChunk <$> q :: l)).
    cbn [deliver delivered_cleanly handle].
    rewrite (on_image_chunk_closed p c Hp Hid). cbn [final returned].
    destruct (IH q (with_partial (set_partial_invalid true) c)) as [-> ->]; done.
Qed.

(** X11: chunks 0, 1, ... of one image, none declaring itself the last,
    delivered without an exception to a client in any state, leave that
    image open: the last stored index is the number of chunks minus one,
    the accumulated size is the sum of the payload lengths, the timestamp is
    that of chunk 0, and nothing has been dispatched, sent or stored as the
    latest image. *)
Theorem open_run_accumulates (c0 : Client) (f : ImageChunk.t) (r : list ImageChunk.t) :
  run_from (ImageChunk.image_id f) 0 (f :: r) = true →
  forallb (λ p, negb (is_last_chunk p)) (f :: r) = true →
  delivered_cleanly (InImageChunk <$> f :: r) c0 = true →
  _partial_image_id (partial (deliver (InImageChunk <$> f :: r) c0))
  = Some (ImageChunk.image_id f)
  ∧ _last_chunk_id (partial (deliver (InImageChunk <$> f :: r) c0))
    = Z.of_nat (length (f :: r)) - 1
  ∧ _partial_size (partial (deliver (InImageChunk <$> f :: r) c0))
    = payload_length (f :: r)
  ∧ _partial_image_timestamp (partial (deliver (InImageChunk <$> f :: r) c0))
    = Some (ImageChunk.frame_timestamp f)
  ∧ effects (deliver (InImageChunk <$> f :: r) c0) = effects c0
  ∧ camera (deliver (InImageChunk <$> f :: r) c0) = camera c0.
Proof. apply deliver_open_run. Qed.

(** X12: a complete frame delivered without an exception to a client in
    any state, whatever image was open before, dispatches exactly one
    [EvtNewRawCameraImage]; the image dispatched is stored as the latest
    image, the last image timestamp is the timestamp of the frame's chunk 0
    (not that of its final chunk), no command is sent, and the partial state
    is reset. *)
Theorem complete_frame_from_any_state
    (c0 : Client) (f : ImageChunk.t) (r : list ImageChunk.t) :
  head r = Some f →
  complete_frame r →
  delivered_cleanly (InImageChunk <$> r) c0 = true →
  ∃ image,
    dispatched (effects (deliver (InImageChunk <$> r) c0))
    = dispatched (effects c0) ++ [(EvtNewRawCameraImage, [ArgImage image])]
    ∧ camera (deliver (InImageChunk <$> r) c0)
      = mkCamera (Some (ImageChunk.frame_timestamp f)) (Some image)
    ∧ conn_sent (effects (deliver (InImageChunk <$> r) c0)) = conn_sent (effects c0)
    ∧ partial (deliver (InImageChunk <$> r) c0) = initial_partial.
Proof.
  intros Hhead (r0 & p & -> & Hrun & Hopen & Hlast) Hclean.
  destruct r0 as [|f' r0].
  - injection Hhead as <-. cbn [run_from] in Hrun.
    apply andb_true_iff in Hrun as [Hrun _]. apply andb_true_iff in Hrun as [Hidx _].
    apply Z.eqb_eq in Hidx.
    cbn [app fmap list_fmap deliver delivered_cleanly handle] in *.
    rewrite andb_true_r in Hclean.
    rewrite (on_image_chunk_first p c0 Hidx) in *.
    cbv [mbind M_bind] in Hclean |- *.
    destruct (open_image p c0) as [[] c1|e c1] eqn:Hopened; [|discriminate].
    destruct (open_image_returned p c0) as (w & h & Heq); [by rewrite Hopened|].
    rewrite Hopened in Heq. injection Heq as ->.
    set (c1 := with_partial _ c0) in *.
    assert (Hid : _partial_image_id (partial c1) = Some (ImageChunk.image_id p))
      by reflexivity.
    assert (Hmatch : (ImageChunk.chunk_id p =? _last_chunk_id (partial c1) + 1)
                     && (ImageChunk.image_id p =? ImageChunk.image_id p) = true).
    { rewrite Hidx, !Z.eqb_refl. reflexivity. }
    destruct (store_chunk_completes p c1 _ Hid Hmatch Hlast Hclean)
      as (buf & image & ->).
    exists image. simpl. rewrite app_nil_r. done.
  - injection Hhead as ->.
    change ((f :: r0) ++ [p]) with (f :: r0 ++ [p]) in Hrun.
    rewrite app_comm_cons in Hrun.
    apply run_from_snoc in Hrun as (Hrun & Hlen & _).
    assert (Hrun' : run_from (ImageChunk.image_id f) 0 (f :: r0) = true).
    { cbn [run_from] in Hrun |- *.
      apply andb_true_iff in Hrun as [Hhd Hrest].
      apply andb_true_iff in Hhd as [Hidx Himg].
      apply Z.eqb_eq in Himg. rewrite Himg, Hidx, Z.eqb_refl. exact Hrest. }
    assert (Himg : ImageChunk.image_id p = ImageChunk.image_id f).
    { cbn [run_from] in Hrun. apply andb_true_iff in Hrun as [Hhd _].
      apply andb_true_iff in Hhd as [_ Himg]. apply Z.eqb_eq in Himg. done. }
    rewrite fmap_app, deliver_app. rewrite fmap_app, delivered_cleanly_app in Hclean.
    apply andb_true_iff in Hclean as [Hpre Hp].
    destruct (deliver_open_run c0 f r0 Hrun' Hopen Hpre)
      as (Hid & Hlst & _ & Hts & Heff & Hcam).
    set (c := deliver (InImageChunk <$> f :: r0) c0) in *.
    cbn [fmap list_fmap deliver delivered_cleanly handle] in Hp |- *.
    rewrite andb_true_r in Hp.
    assert (H0 : ImageChunk.chunk_id p ≠ 0) by (rewrite Hlen; simpl; lia).
    rewrite (on_image_chunk_next p c _ H0 Hid) in *.
    assert (Hmatch : (ImageChunk.chunk_id p =? _last_chunk_id (partial c) + 1)
                     && (ImageChunk.image_id p =? ImageChunk.image_id f) = true).
    { apply andb_true_iff. split; apply Z.eqb_eq; [rewrite Hlst, Hlen; lia|done]. }
    destruct (store_chunk_completes p c _ Hid Hmatch Hlast Hp) as (buf & image & ->).
    exists image. simpl. rewrite Heff, Hts, app_nil_r. done.
Qed.

(** X13: when finalisation raises, the partial state is not reset: the
    chunk that declared itself the last stays stored and its image stays
    open, with that chunk as the last stored index, and nothing is
    dispatched. With no accumulated byte the exception is [IndexError]. *)
Theorem failed_finalisation_keeps_image_open
    (pkt : ImageChunk.t) (c : Client) (i : Z) (buf buf' : ndarray) :
  _partial_image_id (partial c) = Some i →
  (ImageChunk.chunk_id pkt =? _last_chunk_id (partial c) + 1)
  && (ImageChunk.image_id pkt =? i) = true →
  is_last_chunk pkt = true →
  _partial_data (partial c) = Some buf →
  ndarray_setslice buf (_partial_size (partial c))
    (_partial_size (partial c) + Z.of_nat (length (ImageChunk.data pkt)))
    (ImageChunk.data pkt) = Some buf' →
  returned (_process_completed_image (chunk_stored pkt buf' c)) = false →
  ∃ e, store_chunk pkt c = Raise e (chunk_stored pkt buf' c)
    ∧ _partial_image_id (partial (chunk_stored pkt buf' c)) = Some i
    ∧ _last_chunk_id (partial (chunk_stored pkt buf' c)) = ImageChunk.chunk_id pkt
    ∧ dispatched (effects (chunk_stored pkt buf' c)) = dispatched (effects c)
    ∧ (ndarray_getslice buf' 0
         (_partial_size (partial c) + Z.of_nat (length (ImageChunk.data pkt))) = [] →
       e = IndexError).
Proof.
  intros Hid Hmatch Hlast Hbuf Hset Hfail.
  pose proof (process_completed_image_cases (chunk_stored pkt buf' c)) as Hcases.
  destruct (_process_completed_image (chunk_stored pkt buf' c)) as [[] c2|e c2] eqn:Hdone;
    [discriminate|]. subst c2.
  exists e. split; [|split; [exact Hid|split; [reflexivity|split; [reflexivity|]]]].
  - unfold store_chunk. cbv [mbind mret M_bind M_ret gets modify raise].
    rewrite (chunk_mismatch_test pkt c i Hid), Hmatch. simpl.
    rewrite Hbuf, Hset. unfold is_last_chunk in Hlast. rewrite Hlast.
    fold (chunk_stored pkt buf' c). rewrite Hdone. reflexivity.
  - intros Hempty. unfold _process_completed_image in Hdone.
    cbv [mbind mret M_bind M_ret gets modify raise] in Hdone. simpl in Hdone.
    rewrite Hempty in Hdone. congruence.
Qed.

Lemma open_image_keeps_dispatched (pkt : ImageChunk.t) (c : Client) :
  effects (final (open_image pkt c)) = effects c.
Proof.
  unfold open_image, ImageEncoding, ImageResolution, RESOLUTIONS_getitem,
    _reset_partial_state.
  cbv [mbind mret M_bind M_ret modify raise option_bind].
  destruct (decide (ImageChunk.image_encoding pkt ∈ ImageEncoding_values));
    [|reflexivity].
  destruct (decide (ImageChunk.image_resolution pkt ∈ ImageResolution_values));
    [|reflexivity].
  destruct (RESOLUTIONS !! ImageChunk.image_resolution pkt) as [[width height]|];
    reflexivity.
Qed.

Lemma store_chunk_dispatches_at_most_one (pkt : ImageChunk.t) (c : Client) :
  dispatched (effects (final (store_chunk pkt c))) = dispatched (effects c)
  ∨ (returned (store_chunk pkt c) = true
     ∧ is_last_chunk pkt = true
     ∧ ∃ image, dispatched (effects (final (store_chunk pkt c)))
                = dispatched (effects c) ++ [(EvtNewRawCameraImage, [ArgImage image])]).
Proof.
  unfold store_chunk. cbv [mbind mret M_bind M_ret gets modify raise].
  destruct (_ || _); [by left|].
  destruct (_partial_data (partial c)) as [buf|]; [|by left].
  destruct (ndarray_setslice _ _ _ _) as [buf'|]; [|by left].
  unfold is_last_chunk.
  destruct (ImageChunk.chunk_id pkt =? ImageChunk.image_chunk_count pkt - 1);
    [|by left].
  match goal with
  | |- context [_process_completed_image ?c1] =>
      pose proof (process_completed_image_cases c1) as Hdone;
      destruct (_process_completed_image c1) as [[] c2|e c2]
  end.
  - right. destruct Hdone as [image ->]. split; [reflexivity|]. split; [reflexivity|].
    exists image. reflexivity.
  - left. subst c2. reflexivity.
Qed.

(** X14: whatever the state of the client and whether or not the handler
    raises, an image chunk dispatches at most one event, an
    [EvtNewRawCameraImage]; it dispatches one only when the handler returns
    and the chunk declares itself the last. *)
Theorem image_chunk_dispatches_at_most_one (pkt : ImageChunk.t) (c : Client) :
  dispatched (effects (final (_on_image_chunk pkt c))) = dispatched (effects c)
  ∨ (returned (_on_image_chunk pkt c) = true
     ∧ is_last_chunk pkt = true
     ∧ ∃ image, dispatched (effects (final (_on_image_chunk pkt c)))
                = dispatched (effects c) ++ [(EvtNewRawCameraImage, [ArgImage image])]).
Proof.
  destruct (decide (ImageChunk.chunk_id pkt = 0)) as [H0|H0].
  - rewrite (on_image_chunk_first pkt c H0). cbv [mbind M_bind].
    pose proof (open_image_keeps_dispatched pkt c) as Hopen.
    destruct (open_image pkt c) as [[] c1|e c1]; cbn [final] in Hopen.
    + rewrite <- Hopen. apply store_chunk_dispatches_at_most_one.
    + left. cbn [final]. rewrite Hopen. reflexivity.
  - destruct (_partial_image_id (partial c)) as [i|] eqn:Hid.
    + rewrite (on_image_chunk_next pkt c i H0 Hid).
      apply store_chunk_dispatches_at_most_one.
    + rewrite (on_image_chunk_closed pkt c H0 Hid). by left.
Qed.

(** X15: a chunk 0 whose encoding or resolution is unknown raises
    ([ValueError] for a value that is no member of the enum, [KeyError] for
    a resolution without an entry in the table) before a buffer is
    allocated and without an event. The image id is set all the same, but
    the missing buffer is never written: the next chunk with a non-zero
    index is rejected as a mismatch and the partial state is reset. *)
Theorem chunk_zero_with_unknown_format (pkt : ImageChunk.t) (c : Client) :
  ImageChunk.chunk_id pkt = 0 →
  ImageChunk.image_encoding pkt ∉ ImageEncoding_values
  ∨ ImageChunk.image_resolution pkt ∉ ImageResolution_values
  ∨ RESOLUTIONS !! ImageChunk.image_resolution pkt = None →
  ∃ e c', _on_image_chunk pkt c = Raise e c'
    ∧ (e = ValueError ∨ e = KeyError)
    ∧ effects c' = effects c
    ∧ _partial_data (partial c') = None
    ∧ _partial_image_id (partial c') = Some (ImageChunk.image_id pkt)
    ∧ ∀ q, ImageChunk.chunk_id q ≠ 0 →
        _on_image_chunk q c'
        = Ok tt (with_partial (λ _, set_partial_invalid true initial_partial) c').
Proof.
  intros H0 Hbad. rewrite (on_image_chunk_first pkt c H0).
  assert (Hraise : ∃ e c', open_image pkt c = Raise e c'
            ∧ (e = ValueError ∨ e = KeyError)
            ∧ effects c' = effects c
            ∧ _partial_data (partial c') = None
            ∧ _partial_image_id (partial c') = Some (ImageChunk.image_id pkt)
            ∧ _last_chunk_id (partial c') = -1).
  { unfold open_image, ImageEncoding, ImageResolution, RESOLUTIONS_getitem,
      _reset_partial_state.
    cbv [mbind mret M_bind M_ret modify raise option_bind].
    destruct (decide (ImageChunk.image_encoding pkt ∈ ImageEncoding_values)) as [Henc|Henc].
    2:{ eexists _, _. split; [reflexivity|]. split; [by left|]. done. }
    destruct (decide (ImageChunk.image_resolution pkt ∈ ImageResolution_values))
      as [Hres|Hres].
    2:{ eexists _, _. split; [reflexivity|]. split; [by left|]. done. }
    destruct (RESOLUTIONS !! ImageChunk.image_resolution pkt) as [[w h]|] eqn:Hsize.
    { destruct Hbad as [Hbad|[Hbad|Hbad]]; done. }
    eexists _, _. split; [reflexivity|]. split; [by right|]. done. }
  destruct Hraise as (e & c' & Hopen & He & Heff & Hdata & Hid & Hlast).
  exists e, c'. cbv [mbind M_bind]. rewrite Hopen.
  split; [reflexivity|]. split; [exact He|]. split; [exact Heff|].
  split; [exact Hdata|]. split; [exact Hid|].
  intros q Hq. rewrite (on_image_chunk_next q c' _ Hq Hid).
  apply (store_chunk_mismatch q c' _ Hid).
  apply andb_false_iff. left. apply Z.eqb_neq. rewrite Hlast. simpl. done.
Qed.

End Image_frames.

(** *** The further properties on concrete packets *)

Section Further_examples.
#[local] Existing Instance example_env.

(** The theorem for X2: object 7, once discovered, survives a handshake, a
    robot state and a second discovery with another type. *)
Lemma available_object_never_forgotten_example :
  available_objects (final (_on_object_available (ObjectAvailable.mk 7 1) Client__init__))
    !! 7 = Some (mkObject 7 1)
  ∧ available_objects
      (deliver
         [InFirmwareSignature supported_signature; InBodyInfo example_body_info;
          InRobotState (example_robot_state 4098);
          InObjectAvailable (ObjectAvailable.mk 7 2)]
         (final (_on_object_available (ObjectAvailable.mk 7 1) Client__init__)))
    !! 7 = Some (mkObject 7 1).
Proof.
  assert (H : available_objects
                (final (_on_object_available (ObjectAvailable.mk 7 1) Client__init__))
              !! 7 = Some (mkObject 7 1)) by (vm_compute; reflexivity).
  split; [exact H|].
  exact (proj1 (available_object_never_forgotten
                  [InFirmwareSignature supported_signature; InBodyInfo example_body_info;
                   InRobotState (example_robot_state 4098);
                   InObjectAvailable (ObjectAvailable.mk 7 2)]
                  (final (_on_object_available (ObjectAvailable.mk 7 1) Client__init__))
                  7 (mkObject 7 1) H)).
Defined.

(** The theorem for X3: the supported handshake, then a wait that would
    time out if it were reached. *)
Lemma wait_after_supported_handshake_example :
  BodyInfo.serial_number example_body_info ≠ 0
  ∧ wait_for_robot (λ c, (false, c)) (λ c, (false, c))
      (deliver [InFirmwareSignature supported_signature; InBodyInfo example_body_info]
         Client__init__)
    = Ok tt (deliver [InFirmwareSignature supported_signature; InBodyInfo example_body_info]
               Client__init__).
Proof.
  assert (Hsn : BodyInfo.serial_number example_body_info ≠ 0) by done.
  split; [exact Hsn|].
  exact (wait_after_supported_handshake Client__init__ supported_signature
           example_body_info (JObject [("version", JInt 2381)]) (JInt 2381)
           (λ c, (false, c)) (λ c, (false, c)) eq_refl eq_refl eq_refl Hsn).
Defined.

(** The theorem for X4: the same handshake with serial number 0. *)
Lemma wait_after_handshake_with_serial_zero_example :
  wait_for_robot (λ c, (false, c)) (λ c, (false, c))
    (deliver [InFirmwareSignature supported_signature; InBodyInfo (BodyInfo.mk 0 5 2)]
       Client__init__)
  = Raise ConnectionTimeout
      (subscribed EvtRobotReady
         (deliver [InFirmwareSignature supported_signature; InBodyInfo (BodyInfo.mk 0 5 2)]
            Client__init__)).
Proof.
  exact (proj2 (wait_after_handshake_with_serial_zero Client__init__ supported_signature
                  (BodyInfo.mk 0 5 2) (JObject [("version", JInt 2381)]) (JInt 2381)
                  (λ c, (false, c)) (λ c, (false, c)) eq_refl eq_refl eq_refl eq_refl)).
Defined.

(** The theorem for X5: the handshake with version 2380. *)
Lemma wait_after_unsupported_handshake_example :
  wait_for_robot (λ c, (true, c)) (λ c, (true, c))
    (deliver [InFirmwareSignature unsupported_signature; InBodyInfo example_body_info]
       Client__init__)
  = Raise UnsupportedFirmwareVersion
      (deliver [InFirmwareSignature unsupported_signature; InBodyInfo example_body_info]
         Client__init__).
Proof.
  exact (wait_after_unsupported_handshake Client__init__ unsupported_signature
           example_body_info (JObject [("version", JInt 2380)]) (JInt 2380)
           (λ c, (true, c)) (λ c, (true, c)) eq_refl eq_refl eq_refl).
Defined.

(** The theorem for X6: the empty document. *)
Lemma signature_without_version_is_stored_example :
  _on_firmware_signature (FirmwareSignature.mk "{}") Client__init__
  = Raise KeyError (with_ident (set_robot_fw_sig (Some (JObject []))) Client__init__).
Proof.
  exact (proj1 (signature_without_version_is_stored (FirmwareSignature.mk "{}")
                  Client__init__ (JObject []) KeyError eq_refl eq_refl)).
Defined.

(** The theorem for X7: a client that holds the document [[1]]. *)
Lemma wait_for_robot_without_version_example :
  wait_for_robot (λ c, (true, c)) (λ c, (true, c))
    (with_ident (set_robot_fw_sig (Some (JArray [JInt 1]))) Client__init__)
  = Raise TypeError
      (with_ident (set_robot_fw_sig (Some (JArray [JInt 1]))) Client__init__).
Proof.
  exact (proj1 (wait_for_robot_without_version
                  (with_ident (set_robot_fw_sig (Some (JArray [JInt 1]))) Client__init__)
                  (JArray [JInt 1]) TypeError (λ c, (true, c)) (λ c, (true, c))
                  eq_refl eq_refl eq_refl)).
Defined.

(** The theorem for X8: status 0 arrives at a fresh client, whose status is 0. *)
Lemma robot_state_unchanged_flags_example :
  ∃ c', _on_robot_state (example_robot_state 0) Client__init__ = Ok tt c'
    ∧ robot_status (telemetry c') = 0
    ∧ dispatched (effects c')
      = dispatched (effects Client__init__) ++ [(EvtRobotStateUpdated, [])].
Proof.
  exact (robot_state_unchanged_flags (example_robot_state 0) Client__init__
           (λ flag evt _, eq_refl)).
Defined.

(** The theorem for X10: chunks 1 and 2 of image 7 arrive at a fresh client. *)
Lemma nonzero_chunks_while_closed_are_dropped_example :
  deliver (InImageChunk <$> [example_chunk 7 1 3 [3]; example_chunk 7 2 3 [4]])
    Client__init__
  = with_partial (set_partial_invalid true) Client__init__.
Proof.
  assert (Hall : Forall (λ q, ImageChunk.chunk_id q ≠ 0)
                   [example_chunk 7 1 3 [3]; example_chunk 7 2 3 [4]]).
  { repeat constructor; done. }
  exact (proj1 (nonzero_chunks_while_closed_are_dropped (example_chunk 7 1 3 [3])
                  [example_chunk 7 2 3 [4]] Client__init__ eq_refl Hall)).
Defined.

(** The theorem for X11: chunks 0 and 1 of image 7, of three, while image 9
    is open. *)
Lemma open_run_accumulates_example :
  _partial_size (partial (deliver
    (InImageChunk <$> [example_chunk 7 0 3 [1; 2]; example_chunk 7 1 3 [3]])
    (final (_on_image_chunk (example_chunk 9 0 5 [8]) Client__init__))))
  = payload_length [example_chunk 7 0 3 [1; 2]; example_chunk 7 1 3 [3]].
Proof.
  assert (Hclean : delivered_cleanly
    (InImageChunk <$> [example_chunk 7 0 3 [1; 2]; example_chunk 7 1 3 [3]])
    (final (_on_image_chunk (example_chunk 9 0 5 [8]) Client__init__)) = true)
    by (vm_compute; reflexivity).
  exact (proj1 (proj2 (proj2 (open_run_accumulates
    (final (_on_image_chunk (example_chunk 9 0 5 [8]) Client__init__))
    (example_chunk 7 0 3 [1; 2]) [example_chunk 7 1 3 [3]] eq_refl eq_refl Hclean)))).
Defined.

(** The theorem for X12: the three chunks of image 7 while image 9 is open. *)
Lemma complete_frame_from_any_state_example :
  ∃ image,
    dispatched (effects (deliver
      (InImageChunk <$> [example_chunk 7 0 3 [1; 2]; example_chunk 7 1 3 [3];
                         example_chunk 7 2 3 [4]])
      (final (_on_image_chunk (example_chunk 9 0 5 [8]) Client__init__))))
    = dispatched (effects (final (_on_image_chunk (example_chunk 9 0 5 [8])
                                    Client__init__)))
      ++ [(EvtNewRawCameraImage, [ArgImage image])]
    ∧ camera (deliver
        (InImageChunk <$> [example_chunk 7 0 3 [1; 2]; example_chunk 7 1 3 [3];
                           example_chunk 7 2 3 [4]])
        (final (_on_image_chunk (example_chunk 9 0 5 [8]) Client__init__)))
      = mkCamera (Some 1000) (Some image).
Proof.
  assert (Hclean : delivered_cleanly
    (InImageChunk <$> [example_chunk 7 0 3 [1; 2]; example_chunk 7 1 3 [3];
                       example_chunk 7 2 3 [4]])
    (final (_on_image_chunk (example_chunk 9 0 5 [8]) Client__init__)) = true)
    by (vm_compute; reflexivity).
  assert (Hframe : complete_frame
    [example_chunk 7 0 3 [1; 2]; example_chunk 7 1 3 [3]; example_chunk 7 2 3 [4]]).
  { exists [example_chunk 7 0 3 [1; 2]; example_chunk 7 1 3 [3]], (example_chunk 7 2 3 [4]).
    split; [reflexivity|]. split; [|split]; reflexivity. }
  destruct (complete_frame_from_any_state
    (final (_on_image_chunk (example_chunk 9 0 5 [8]) Client__init__))
    (example_chunk 7 0 3 [1; 2])
    [example_chunk 7 0 3 [1; 2]; example_chunk 7 1 3 [3]; example_chunk 7 2 3 [4]]
    eq_refl Hframe Hclean) as (image & Hdisp & Hcam & _).
  exists image. split; [exact Hdisp|exact Hcam].
Defined.

(** The theorem for X13: a single chunk with an empty payload. *)
Lemma failed_finalisation_keeps_image_open_example :
  ∃ e, store_chunk (example_chunk 7 0 1 [])
         (final (open_image (example_chunk 7 0 1 []) Client__init__))
       = Raise e (chunk_stored (example_chunk 7 0 1 []) (np_empty 768)
                    (final (open_image (example_chunk 7 0 1 []) Client__init__)))
    ∧ e = IndexError.
Proof.
  destruct (failed_finalisation_keeps_image_open (example_chunk 7 0 1 [])
              (final (open_image (example_chunk 7 0 1 []) Client__init__))
              7 (np_empty 768) (np_empty 768))
    as (e & Hstore & _ & _ & _ & He); try (vm_compute; reflexivity).
  exists e. split; [exact Hstore|]. apply He. vm_compute. reflexivity.
Defined.

(** The theorem for X15: chunk 0 with encoding 99, which is no member. *)
Lemma chunk_zero_with_unknown_format_example :
  ∃ e c', _on_image_chunk (ImageChunk.mk 1000 7 99 0 3 0 [1]) Client__init__ = Raise e c'
    ∧ _partial_data (partial c') = None
    ∧ _on_image_chunk (example_chunk 7 1 3 [2]) c'
      = Ok tt (with_partial (λ _, set_partial_invalid true initial_partial) c').
Proof.
  assert (Hbad : ImageChunk.image_encoding (ImageChunk.mk 1000 7 99 0 3 0 [1])
                 ∉ ImageEncoding_values).
  { apply (bool_decide_unpack _). vm_compute. reflexivity. }
  destruct (chunk_zero_with_unknown_format (ImageChunk.mk 1000 7 99 0 3 0 [1])
              Client__init__ eq_refl (or_introl Hbad))
    as (e & c' & Hraise & _ & _ & Hdata & _ & Hnext).
  exists e, c'. split; [exact Hraise|]. split; [exact Hdata|].
  apply Hnext. done.
Defined.

End Further_examples.
